(** * jerusalem-client: challenge/response authentication, control session
      and tunnel handlers

    A shallow embedding of the authenticator ([auth.go]), of the message
    envelopes and of the client ([NewClient], [Listen] and the tunnel
    connection handler), with the parts of [crypto/sha256], [crypto/hmac],
    [crypto/subtle] and [encoding/hex] that they call.

    Go strings are [string], byte slices are [list byte], [uint32] words
    are [Z] reduced modulo [2^32], [uint16] ports are [N], and a Go [error]
    is an [option string] holding the text of [Error()] ([None] is [nil]).
    Functions that talk to the network are computations over a [World] that
    holds the sockets and scripts what the peers will do. *)

From Stdlib.Strings Require Import String Ascii Byte.
From Stdlib Require Import DecimalString.
From Stdlib Require Import ZArith NArith Bool Lia List.
Import ListNotations.

Local Open Scope string_scope.
Local Open Scope list_scope.
Local Open Scope Z_scope.

(* ================================================================== *)
(** * Bytes and machine words *)
(* ================================================================== *)

Definition byte_to_Z (b : byte) : Z := Z.of_N (Byte.to_N b).

(** Conversion [byte(x)]: keeps the low eight bits. *)
Definition byte_of_Z (x : Z) : byte :=
  byte_of_ascii (ascii_of_N (Z.to_N (x mod 256))).

(** [x] is the value of a [uint8]. *)
Definition is_uint8 (x : Z) : Prop := x mod 2 ^ 8 = x.

(** [uint32] arithmetic wraps around. *)
Definition u32 (x : Z) : Z := x mod 2 ^ 32.

Definition add32 (x y : Z) : Z := u32 (x + y).

(** [bits.RotateLeft32(x, -k)] for [0 < k < 32]. *)
Definition rotr32 (x k : Z) : Z :=
  Z.lor (Z.shiftr x k) (u32 (Z.shiftl x (32 - k))).

(** [^x] on a [uint32]. *)
Definition not32 (x : Z) : Z := Z.lxor x 0xffffffff.

(* ================================================================== *)
(** * crypto/sha256 *)
(* ================================================================== *)

Module sha256.

Definition chunk : nat := 64.
Definition Size : nat := 32.
Definition BlockSize : nat := 64.

Definition _K : list Z :=
  [0x428a2f98; 0x71374491; 0xb5c0fbcf; 0xe9b5dba5] ++
  [0x3956c25b; 0x59f111f1; 0x923f82a4; 0xab1c5ed5] ++
  [0xd807aa98; 0x12835b01; 0x243185be; 0x550c7dc3] ++
  [0x72be5d74; 0x80deb1fe; 0x9bdc06a7; 0xc19bf174] ++
  [0xe49b69c1; 0xefbe4786; 0x0fc19dc6; 0x240ca1cc] ++
  [0x2de92c6f; 0x4a7484aa; 0x5cb0a9dc; 0x76f988da] ++
  [0x983e5152; 0xa831c66d; 0xb00327c8; 0xbf597fc7] ++
  [0xc6e00bf3; 0xd5a79147; 0x06ca6351; 0x14292967] ++
  [0x27b70a85; 0x2e1b2138; 0x4d2c6dfc; 0x53380d13] ++
  [0x650a7354; 0x766a0abb; 0x81c2c92e; 0x92722c85] ++
  [0xa2bfe8a1; 0xa81a664b; 0xc24b8b70; 0xc76c51a3] ++
  [0xd192e819; 0xd6990624; 0xf40e3585; 0x106aa070] ++
  [0x19a4c116; 0x1e376c08; 0x2748774c; 0x34b0bcb5] ++
  [0x391c0cb3; 0x4ed8aa4a; 0x5b9cca4f; 0x682e6ff3] ++
  [0x748f82ee; 0x78a5636f; 0x84c87814; 0x8cc70208] ++
  [0x90befffa; 0xa4506ceb; 0xbef9a3f7; 0xc67178f2].

(** The eight chaining words [h0 .. h7] of a [digest]. *)
Record digest := mkDigest {
  h0 : Z; h1 : Z; h2 : Z; h3 : Z; h4 : Z; h5 : Z; h6 : Z; h7 : Z
}.

Definition init : digest :=
  mkDigest 0x6a09e667 0xbb67ae85 0x3c6ef372 0xa54ff53a
           0x510e527f 0x9b05688c 0x1f83d9ab 0x5be0cd19.

Definition at_ (l : list Z) (i : nat) : Z := nth i l 0.

(** [w[i] = uint32(p[j])<<24 | uint32(p[j+1])<<16 | uint32(p[j+2])<<8 | uint32(p[j+3])] *)
Fixpoint load_words (n : nat) (p : list byte) : list Z :=
  match n with
  | O => []
  | S n' =>
      let b k := byte_to_Z (nth k p "000"%byte) in
      Z.lor (Z.lor (Z.lor (Z.shiftl (b 0%nat) 24) (Z.shiftl (b 1%nat) 16))
                   (Z.shiftl (b 2%nat) 8)) (b 3%nat)
        :: load_words n' (skipn 4 p)
  end.

(** The loop [for i := 16; i < 64; i++]: [w] holds [w[0..i-1]]. *)
Fixpoint schedule (n : nat) (w : list Z) : list Z :=
  match n with
  | O => w
  | S n' =>
      let i := length w in
      let v1 := at_ w (i - 2) in
      let t1 := Z.lxor (Z.lxor (rotr32 v1 17) (rotr32 v1 19)) (Z.shiftr v1 10) in
      let v2 := at_ w (i - 15) in
      let t2 := Z.lxor (Z.lxor (rotr32 v2 7) (rotr32 v2 18)) (Z.shiftr v2 3) in
      schedule n' (w ++ [add32 (add32 (add32 t1 (at_ w (i - 7))) t2) (at_ w (i - 16))])
  end.

(** One iteration of the loop [for i := 0; i < 64; i++] on [a .. h]. *)
Definition round (w : list Z) (s : digest) (i : nat) : digest :=
  let '(mkDigest a b c d e f g h) := s in
  let t1 := add32 (add32 (add32 (add32 h
              (Z.lxor (Z.lxor (rotr32 e 6) (rotr32 e 11)) (rotr32 e 25)))
              (Z.lxor (Z.land e f) (Z.land (not32 e) g)))
              (at_ _K i)) (at_ w i) in
  let t2 := add32
              (Z.lxor (Z.lxor (rotr32 a 2) (rotr32 a 13)) (rotr32 a 22))
              (Z.lxor (Z.lxor (Z.land a b) (Z.land a c)) (Z.land b c)) in
  mkDigest (add32 t1 t2) a b c (add32 d t1) e f g.

(** The body of [for len(p) >= chunk] on one 64-byte chunk. *)
Definition block1 (dig : digest) (p : list byte) : digest :=
  let w := schedule 48 (load_words 16 p) in
  let s := fold_left (round w) (seq 0 64) dig in
  mkDigest (add32 (h0 dig) (h0 s)) (add32 (h1 dig) (h1 s))
           (add32 (h2 dig) (h2 s)) (add32 (h3 dig) (h3 s))
           (add32 (h4 dig) (h4 s)) (add32 (h5 dig) (h5 s))
           (add32 (h6 dig) (h6 s)) (add32 (h7 dig) (h7 s)).

(** [blockGeneric]: [n] bounds the number of chunks left in [p]. *)
Fixpoint blockGeneric (n : nat) (dig : digest) (p : list byte) : digest :=
  match n with
  | O => dig
  | S n' =>
      if (chunk <=? length p)%nat
      then blockGeneric n' (block1 dig (firstn chunk p)) (skipn chunk p)
      else dig
  end.

(** [binary.BigEndian.PutUint32] and [PutUint64]. *)
Definition be32 (x : Z) : list byte :=
  [byte_of_Z (Z.shiftr x 24); byte_of_Z (Z.shiftr x 16);
   byte_of_Z (Z.shiftr x 8); byte_of_Z x].

Definition be64 (x : Z) : list byte :=
  be32 (Z.shiftr x 32) ++ be32 x.

(** The padding that [checkSum] writes after a message of [len] bytes:
    a 1 bit, 0 bits up to 56 bytes mod 64, and the length in bits. *)
Definition padding (len : nat) : list byte :=
  let r := (len mod 64)%nat in
  let t := if (r <? 56)%nat then (56 - r)%nat else (64 + 56 - r)%nat in
  "128"%byte :: repeat "000"%byte (t - 1)
    ++ be64 ((Z.of_nat len * 8) mod 2 ^ 64).

Definition checkSum (dig : digest) : list byte :=
  be32 (h0 dig) ++ be32 (h1 dig) ++ be32 (h2 dig) ++ be32 (h3 dig) ++
  be32 (h4 dig) ++ be32 (h5 dig) ++ be32 (h6 dig) ++ be32 (h7 dig).

(** [sha256.Sum256(data)], also [h := sha256.New(); h.Write(data); h.Sum(nil)]. *)
Definition Sum256 (data : list byte) : list byte :=
  let p := data ++ padding (length data) in
  checkSum (blockGeneric (length p / chunk) init p).

End sha256.

(* ================================================================== *)
(** * crypto/hmac and crypto/subtle *)
(* ================================================================== *)

Module hmac.

Definition xor_pad (c : Z) (key : list byte) : list byte :=
  map (fun b => byte_of_Z (Z.lxor (byte_to_Z b) c))
      (key ++ repeat "000"%byte (sha256.BlockSize - length key)).

(** [m := hmac.New(sha256.New, key); m.Write(msg); m.Sum(nil)]. *)
Definition Sum (key msg : list byte) : list byte :=
  let key := if (sha256.BlockSize <? length key)%nat
             then sha256.Sum256 key else key in
  let ipad := xor_pad 0x36 key in
  let opad := xor_pad 0x5c key in
  sha256.Sum256 (opad ++ sha256.Sum256 (ipad ++ msg)).

(** [subtle.ConstantTimeByteEq(x, y)]: [int((uint32(x^y) - 1) >> 31)]. *)
Definition ConstantTimeByteEq (x y : Z) : Z :=
  Z.shiftr (u32 (Z.lxor x y - 1)) 31.

(** [v |= x[i] ^ y[i]], the body of the loop of [ConstantTimeCompare]. *)
Definition or_xor (v : Z) (xy : byte * byte) : Z :=
  Z.lor v (Z.lxor (byte_to_Z (fst xy)) (byte_to_Z (snd xy))).

(** [subtle.ConstantTimeCompare]. *)
Definition ConstantTimeCompare (x y : list byte) : Z :=
  if negb (length x =? length y)%nat then 0
  else
    let v := fold_left or_xor (combine x y) 0 in
    ConstantTimeByteEq v 0.

(** [hmac.Equal(mac1, mac2)]. *)
Definition Equal (mac1 mac2 : list byte) : bool :=
  ConstantTimeCompare mac1 mac2 =? 1.

End hmac.

(* ================================================================== *)
(** * encoding/hex *)
(* ================================================================== *)

Module hex.

Definition hextable : list byte := list_byte_of_string "0123456789abcdef".

(** [EncodeToString]: each byte [v] gives [hextable[v>>4]], [hextable[v&0x0f]]. *)
Definition Encode (src : list byte) : list byte :=
  flat_map (fun v =>
    [nth (Z.to_nat (Z.shiftr (byte_to_Z v) 4)) hextable "000"%byte;
     nth (Z.to_nat (Z.land (byte_to_Z v) 0x0f)) hextable "000"%byte]) src.

Definition EncodeToString (src : list byte) : string :=
  string_of_list_byte (Encode src).

(** [reverseHexTable]: the value of a hex digit, [0xff] for any other byte. *)
Definition reverseHexTable (c : byte) : Z :=
  let x := byte_to_Z c in
  if (48 <=? x) && (x <=? 57) then x - 48
  else if (97 <=? x) && (x <=? 102) then x - 97 + 10
  else if (65 <=? x) && (x <=? 70) then x - 65 + 10
  else 0xff.

Inductive error_ :=
| InvalidByteError (b : byte)
| ErrLength.

(** [Decode]: the bytes decoded before the first problem, and the problem. *)
Fixpoint Decode (src : list byte) : list byte * option error_ :=
  match src with
  | [] => ([], None)
  | [p] =>
      if reverseHexTable p >? 0x0f
      then ([], Some (InvalidByteError p))
      else ([], Some ErrLength)
  | p :: q :: rest =>
      let a := reverseHexTable p in
      let b := reverseHexTable q in
      if a >? 0x0f then ([], Some (InvalidByteError p))
      else if b >? 0x0f then ([], Some (InvalidByteError q))
      else
        let '(dst, err) := Decode rest in
        (byte_of_Z (Z.lor (Z.shiftl a 4) b) :: dst, err)
  end.

Definition DecodeString (s : string) : list byte * option error_ :=
  Decode (list_byte_of_string s).

End hex.

(** The answers that [hex.DecodeString] accepts, said directly: an even
    number of characters, each of them a hexadecimal digit of either case. *)
Definition is_hex_digit (c : byte) : bool :=
  existsb (Byte.eqb c) (list_byte_of_string "0123456789abcdefABCDEF").

Definition is_hex_bytes (src : list byte) : bool :=
  Nat.even (length src) && forallb is_hex_digit src.

Definition is_hex_string (s : string) : bool :=
  is_hex_bytes (list_byte_of_string s).

(* ================================================================== *)
(** * protocol.go: the message envelopes *)
(* ================================================================== *)

(** [uuid.UUID] is [[16]byte]; [ch[:]] is its sixteen bytes. *)
Definition UUID := list byte.

Definition uuid_Nil : UUID := repeat "000"%byte 16.

Definition MtChallenge := "Challenge".
Definition MtHeartbeat := "Heartbeat".
Definition MtConnection := "Connection".
Definition MtAuthenticate := "Authenticate".
Definition MtFreePort := "FreePort".
Definition MtHello := "Hello".
Definition MtError := "Error".

Record ClientMessage := mkClientMessage {
  cm_Type : string;
  cm_Authenticate : string;
  cm_Port : N;
  cm_Accept : UUID;
  cm_ClientId : string
}.

Record ServerMessage := mkServerMessage {
  sm_Type : string;
  sm_Challenge : UUID;
  sm_Port : N;
  sm_Heartbeat : bool;
  sm_Connection : UUID;
  sm_Error : string
}.

(** The zero value [ClientMessage{}], for composite literals that name
    only some fields. *)
Definition ClientMessage0 : ClientMessage :=
  mkClientMessage "" "" 0%N uuid_Nil "".

Definition ServerMessage0 : ServerMessage :=
  mkServerMessage "" uuid_Nil 0%N false uuid_Nil "".

(** A Go [error]: [None] is [nil], [Some s] an error whose [Error()] is [s]. *)
Definition error := option string.

(** [fmt.Sprintf("%d", n)] on an unsigned integer. *)
Definition fmt_d (n : N) : string := NilZero.string_of_uint (N.to_uint n).

(* ================================================================== *)
(** * The environment: sockets, peers and goroutines *)
(* ================================================================== *)

(** What one [Recv] on a channel finds: a complete message, or a transport
    or decode failure. *)
Inductive RecvEvent :=
| Arrives (m : ServerMessage)
| RecvFails (e : string).

(** A TCP socket as the client sees it.  [sock_rx] is what the peer will
    deliver, in order; [sock_txfail] decides the successive [Send] calls
    ([None], or no entry left, is a successful send); [sock_tx] records the
    messages sent so far, oldest first. *)
Record Socket := mkSocket {
  sock_addr : string;
  sock_open : bool;
  sock_rx : list RecvEvent;
  sock_txfail : list error;
  sock_tx : list ClientMessage
}.

(** What one [net.DialTimeout] finds. *)
Inductive DialEvent :=
| Connects (rx : list RecvEvent) (txfail : list error)
| DialFails (e : string).

(** How the two [io.Copy] goroutines of one tunnel end: the error of the
    server-to-local copy, the error of the local-to-server copy and which
    of the two returned first; or one of them never returns. *)
Inductive CopyEvent :=
| CopyEnds (down up : error) (down_first : bool)
| CopyHangs.

(** [socks] holds every socket opened so far, a connection being its index;
    [dials] and [copies] are the outcomes of the connection attempts and
    tunnel relays still to come; [logs] is the output of package [log];
    [goroutines] lists the connection ids of the handlers started by [go]. *)
Record World := mkWorld {
  socks : list Socket;
  dials : list DialEvent;
  copies : list CopyEvent;
  logs : list string;
  goroutines : list UUID
}.

(** A computation in the environment.  [None]: the call never returns (a
    receive without deadline on a silent peer, a relay that never ends, or
    a loop still running when the fuel is spent). *)
Definition M (A : Type) : Type := World -> option (A * World).

Definition ret {A} (a : A) : M A := fun w => Some (a, w).

Definition bind {A B} (m : M A) (f : A -> M B) : M B :=
  fun w => match m w with
           | Some (a, w') => f a w'
           | None => None
           end.

Definition blocked {A} : M A := fun _ => None.

Declare Scope go_scope.
Delimit Scope go_scope with go.
Notation "x <- m ;; k" := (bind m (fun x => k))
  (at level 61, m at next level, right associativity) : go_scope.
Notation "m ;;; k" := (bind m (fun _ => k))
  (at level 61, right associativity) : go_scope.
Local Open Scope go_scope.

(** [defer cleanup] in front of [body]: the cleanup runs when the body
    returns, whatever it returns. *)
Definition defer {A} (cleanup : M unit) (body : M A) : M A :=
  r <- body ;; cleanup ;;; ret r.

(** [l[i] = f(l[i])]; nothing happens out of range. *)
Fixpoint update_nth {A} (i : nat) (f : A -> A) (l : list A) : list A :=
  match l, i with
  | [], _ => []
  | x :: l', O => f x :: l'
  | x :: l', S i' => x :: update_nth i' f l'
  end.

Definition net_conn := nat.
Bind Scope nat_scope with net_conn.

(** The changes an operation makes to the world. *)
Definition on_sock (c : net_conn) (f : Socket -> Socket) (w : World) : World :=
  mkWorld (update_nth c f (socks w)) (dials w) (copies w) (logs w) (goroutines w).

Definition rx_next (rest : list RecvEvent) (s : Socket) : Socket :=
  mkSocket (sock_addr s) (sock_open s) rest (sock_txfail s) (sock_tx s).

Definition tx_failed (s : Socket) : Socket :=
  mkSocket (sock_addr s) (sock_open s) (sock_rx s) (tl (sock_txfail s)) (sock_tx s).

Definition tx_sent (msg : ClientMessage) (s : Socket) : Socket :=
  mkSocket (sock_addr s) (sock_open s) (sock_rx s) (tl (sock_txfail s))
           (sock_tx s ++ [msg]).

Definition closed (s : Socket) : Socket :=
  mkSocket (sock_addr s) false (sock_rx s) (sock_txfail s) (sock_tx s).

Definition add_log (line : string) (w : World) : World :=
  mkWorld (socks w) (dials w) (copies w) (logs w ++ [line]) (goroutines w).

Definition add_goroutine (id : UUID) (w : World) : World :=
  mkWorld (socks w) (dials w) (copies w) (logs w) (goroutines w ++ [id]).

Definition dialed (new : list Socket) (w : World) : World :=
  mkWorld (socks w ++ new) (tl (dials w)) (copies w) (logs w) (goroutines w).

Definition copied (w : World) : World :=
  mkWorld (socks w) (dials w) (tl (copies w)) (logs w) (goroutines w).

(** [log.Println] and [log.Printf]: one entry of output, without the
    newline that ends it. *)
Definition log_ (line : string) : M unit :=
  fun w => Some (tt, add_log line w).

(** [go f()] where [f] is the handler closure for connection [id]. *)
Definition go_ (id : UUID) : M unit :=
  fun w => Some (tt, add_goroutine id w).

(** [net.DialTimeout("tcp", address, networkTimeout)]: the next entry of
    [dials] decides; with none left the attempt times out. *)
Definition DialTimeout (address : string) : M (net_conn + string) :=
  fun w =>
    match dials w with
    | Connects rx txf :: _ =>
        Some (inl (length (socks w)),
              dialed [mkSocket address true rx txf []] w)
    | DialFails e :: _ => Some (inr e, dialed [] w)
    | [] => Some (inr "i/o timeout", w)
    end.

(** [conn.Close()]. *)
Definition Close (conn : net_conn) : M unit :=
  fun w => Some (tt, on_sock conn closed w).

(* ================================================================== *)
(** * The channel (Codec) *)
(* ================================================================== *)

Record Codec := mkCodec { conn : net_conn }.

Definition NewCodec (c : net_conn) : Codec := mkCodec c.

(** A [context.Context] as far as [Recv] looks at it. *)
Inductive Context_ :=
| Background
| WithTimeout.

(** Modelled from the spec: the methods [Send] and [Recv] of [Codec] (the
    file that declares [Codec], [NewCodec] and [NetworkTimeout] is not part
    of the sources at hand).  [Send(message)] enqueues exactly one complete
    message atomically, or fails with a transport error. *)
Definition Send (stream : Codec) (msg : ClientMessage) : M error :=
  fun w =>
    match nth_error (socks w) (conn stream) with
    | None => Some (Some "use of closed network connection", w)
    | Some s =>
        match sock_txfail s with
        | Some e :: _ => Some (Some e, on_sock (conn stream) tx_failed w)
        | _ => Some (None, on_sock (conn stream) (tx_sent msg) w)
        end
    end.

(** Modelled from the spec: [Recv(ctx, &msg)] blocks until one complete
    message is available, or fails with a timeout error if a deadline is
    set and elapses, or with a decode error on malformed input.  The
    received message replaces [msg] as a whole. *)
Definition Recv (stream : Codec) (ctx : Context_) : M (ServerMessage + string) :=
  fun w =>
    match nth_error (socks w) (conn stream) with
    | None => Some (inr "use of closed network connection", w)
    | Some s =>
        match sock_rx s with
        | Arrives m :: rest => Some (inl m, on_sock (conn stream) (rx_next rest) w)
        | RecvFails e :: rest => Some (inr e, on_sock (conn stream) (rx_next rest) w)
        | [] =>
            match ctx with
            | WithTimeout => Some (inr "context deadline exceeded", w)
            | Background => None
            end
        end
    end.

(** [touches c w w']: between [w] and [w'] nothing happened but traffic
    on the socket [c], which was neither opened nor closed meanwhile. *)
Definition touches (c : net_conn) (w w' : World) : Prop :=
  exists f, w' = on_sock c f w /\ (forall s, sock_open (f s) = sock_open s).

(** [grown w w' new]: since [w] the sockets [new] were opened, the older
    ones were left alone, nothing was logged and no goroutine started, and
    some of the relays to come have taken place. *)
Definition grown (w w' : World) (new : list Socket) : Prop :=
  socks w' = socks w ++ new
  /\ logs w' = logs w
  /\ goroutines w' = goroutines w
  /\ exists n, copies w' = skipn n (copies w).

(* ================================================================== *)
(** * auth.go *)
(* ================================================================== *)

Record Authenticator := mkAuthenticator { k : list byte }.

Definition NewAuthenticator (secret : string) : Authenticator :=
  let h := sha256.Sum256 (list_byte_of_string secret) in
  mkAuthenticator h.

Definition GenerateAnswer (a : Authenticator) (ch : UUID) : string :=
  hex.EncodeToString (hmac.Sum (k a) ch).

Definition ValidateAnswer (a : Authenticator) (ch : UUID) (ans : string) : bool :=
  let '(b, err) := hex.DecodeString ans in
  match err with
  | Some _ => false
  | None =>
      let em := hmac.Sum (k a) ch in
      hmac.Equal em b
  end.

Definition PerformClientHandshake (a : Authenticator) (stream : Codec)
    (clientId : string) : M (N * error) :=
  r <- Recv stream WithTimeout ;;
  match r with
  | inr err => ret (0%N, Some err)
  | inl msg =>
      if negb (sm_Type msg =? MtChallenge)%string
      then ret (0%N, Some "no secret provided / invalid secret key")
      else
        let answer := GenerateAnswer a (sm_Challenge msg) in
        e <- Send stream (mkClientMessage MtAuthenticate answer 0%N uuid_Nil clientId) ;;
        match e with
        | Some err => ret (0%N, Some err)
        | None =>
            r <- Recv stream WithTimeout ;;
            match r with
            | inr err => ret (0%N, Some err)
            | inl msg =>
                if negb (sm_Type msg =? MtFreePort)%string
                then ret (0%N, Some "rejection response from server")
                else ret (sm_Port msg, None)
            end
        end
  end.

(* ================================================================== *)
(** * client.go *)
(* ================================================================== *)

Record Client := mkClient {
  sp : N;
  cc : Codec;
  da : string;
  lh : string;
  lp : N;
  rp : N;
  auth : option Authenticator;
  cid : string
}.

Definition nl : string := String (ascii_of_nat 10) EmptyString.

Definition establishConnectionWithTimeout (host : string) (port : N)
    : M (net_conn + string) :=
  let address := (host ++ ":" ++ fmt_d port)%string in
  r <- DialTimeout address ;;
  match r with
  | inr err => ret (inr ("could not connect to " ++ address ++ ": " ++ err)%string)
  | inl c => ret (inl c)
  end.

Definition processInitialServerMessage (msg : ServerMessage) : N * error :=
  if (sm_Type msg =? MtHello)%string then (sm_Port msg, None)
  else if (sm_Type msg =? MtError)%string
  then (0%N, Some ("server error: " ++ sm_Error msg)%string)
  else if (sm_Type msg =? MtChallenge)%string
  then (0%N, Some "server requires authentication, but no client secret was provided")
  else (0%N, Some ("unexpected initial non-hello message of type: " ++ sm_Type msg)%string).

Definition NewClient (sp : N) (lh : string) (lp : N) (da cid s : string)
    : M (option Client * error) :=
  r <- establishConnectionWithTimeout da sp ;;
  match r with
  | inr err => ret (None, Some ("failed to connect to " ++ da ++ ": " ++ err)%string)
  | inl conn =>
      let cc := NewCodec conn in
      let auth := NewAuthenticator s in
      hs <- PerformClientHandshake auth cc cid ;;
      match hs with
      | (_, Some err) => ret (None, Some ("client handshake failed: " ++ err)%string)
      | (destPort, None) =>
          e <- Send cc (mkClientMessage MtHello "" destPort uuid_Nil "") ;;
          match e with
          | Some err => ret (None, Some ("failed to send hello message: " ++ err)%string)
          | None =>
              r <- Recv cc WithTimeout ;;
              match r with
              | inr err =>
                  ret (None, Some ("failed to receive server message: " ++ err)%string)
              | inl msg =>
                  match processInitialServerMessage msg with
                  | (_, Some err) => ret (None, Some err)
                  | (rp, None) =>
                      log_ ("Connected to server at " ++ da ++ ":" ++ fmt_d rp)%string ;;;
                      log_ ("Listening for connection to redirect" ++ nl)%string ;;;
                      ret (Some (mkClient sp cc da lh lp rp (Some auth) cid), None)
                  end
              end
          end
      end
  end.

Definition RemotePort (c : Client) : N := rp c.

(** [eg.Wait()] on the two [io.Copy] goroutines: the first non-nil error
    in the order in which they returned. *)
Definition eg_Wait : M error :=
  fun w =>
    match copies w with
    | CopyHangs :: _ => None
    | CopyEnds down up down_first :: _ =>
        let first := if down_first then down else up in
        let second := if down_first then up else down in
        Some (match first with Some e => Some e | None => second end, copied w)
    | [] => Some (None, w)
    end.

(** The block [if c.auth != nil { ... }] of the handler: a full fresh
    handshake on the new channel when an authenticator is configured. *)
Definition handler_handshake (c : Client) (rc : Codec) : M (N * error) :=
  match auth c with
  | Some a => PerformClientHandshake a rc (cid c)
  | None => ret (0%N, None)
  end.

Definition establishConnectionRoutine (c : Client) (id : UUID) : M error :=
  r <- establishConnectionWithTimeout (da c) (sp c) ;;
  match r with
  | inr err => ret (Some ("failed to connect to " ++ da c ++ ": " ++ err)%string)
  | inl conn =>
      defer (Close conn) (
        let rc := NewCodec conn in
        hs <- handler_handshake c rc ;;
        match snd hs with
        | Some err => ret (Some ("client handshake failed: " ++ err)%string)
        | None =>
            e <- Send rc (mkClientMessage "Accept" "" 0%N id "") ;;
            match e with
            | Some err => ret (Some ("failed to send accept message: " ++ err)%string)
            | None =>
                l <- establishConnectionWithTimeout (lh c) (lp c) ;;
                match l with
                | inr err =>
                    ret (Some ("failed to connect to local host " ++ lh c ++ ":"
                               ++ fmt_d (lp c) ++ ": " ++ err)%string)
                | inl lconn =>
                    defer (Close lconn) (
                      e <- eg_Wait ;;
                      match e with
                      | Some err => ret (Some ("data transfer failed: " ++ err)%string)
                      | None => ret None
                      end)
                end
            end
        end)
  end.


Definition processServerMessage (c : Client) (msg : ServerMessage) : M error :=
  if (sm_Type msg =? MtHello)%string
  then log_ "Received an unexpected hello message" ;;; ret None
  else if (sm_Type msg =? MtChallenge)%string
  then log_ "Received an unexpected challenge message" ;;; ret None
  else if (sm_Type msg =? MtHeartbeat)%string
  then ret None
  else if (sm_Type msg =? MtConnection)%string
  then
    let id := sm_Connection msg in
    go_ id ;;; ret None
  else if (sm_Type msg =? MtError)%string
  then ret (Some ("server error: " ++ sm_Error msg)%string)
  else ret (Some ("received unexpected message type: " ++ sm_Type msg)%string).

(** [Listen]: at most [fuel] turns of the [for] loop.  The spinner is
    display only and left out. *)
Fixpoint Listen (fuel : nat) (c : Client) : M error :=
  match fuel with
  | O => blocked
  | S fuel' =>
      r <- Recv (cc c) Background ;;
      match r with
      | inr err => ret (Some ("failed to receive server message: " ++ err)%string)
      | inl msg =>
          e <- processServerMessage c msg ;;
          match e with
          | Some err => ret (Some err)
          | None => Listen fuel' c
          end
      end
  end.


(* ================================================================== *)
(** * Mock servers for the scenarios *)
(* ================================================================== *)

Module Scenario.

(** The five server messages, and the grant of a free port. *)
Definition Challenge (ch : UUID) : ServerMessage :=
  mkServerMessage MtChallenge ch 0%N false uuid_Nil "".

Definition FreePort (port : N) : ServerMessage :=
  mkServerMessage MtFreePort uuid_Nil port false uuid_Nil "".

Definition Hello (port : N) : ServerMessage :=
  mkServerMessage MtHello uuid_Nil port false uuid_Nil "".

Definition Heartbeat : ServerMessage :=
  mkServerMessage MtHeartbeat uuid_Nil 0%N true uuid_Nil "".

Definition Connection (id : UUID) : ServerMessage :=
  mkServerMessage MtConnection uuid_Nil 0%N false id "".

Definition Error (text : string) : ServerMessage :=
  mkServerMessage MtError uuid_Nil 0%N false uuid_Nil text.

Definition X : UUID := list_byte_of_string "0123456789abcdef".
Definition Y : UUID := list_byte_of_string "fedcba9876543210".

Definition secret : string := "2y6sUp8cBSfNDk7Jq5uLm0xHAIOb9ZGqE4hR1WVXtCwKjP3dYzvTn2QiFXe8rMb6".

(** Nothing opened yet; the server will play [script] on the connection. *)
Definition server (script : list RecvEvent) : World :=
  mkWorld [] [Connects script []] [] [] [].

(** An established session on socket 0, with [rx] still to be received,
    and the connection attempts [ds] and relays [cs] to come. *)
Definition client : Client :=
  mkClient 8901 (mkCodec 0) "relay" "127.0.0.1" 9090 9090
           (Some (NewAuthenticator secret)) "TEST".

Definition established (rx : list RecvEvent) (ds : list DialEvent)
    (cs : list CopyEvent) : World :=
  mkWorld [mkSocket "relay:8901" true rx [] []] ds cs [] [].

(** The server side of a data connection that authenticates. *)
Definition tunnel (txfail : list error) : DialEvent :=
  Connects [Arrives (Challenge Y); Arrives (FreePort 5000)] txfail.

Definition local_service : DialEvent := Connects [] [].

(** What one run of the handler leaves: its error, and which sockets
    are open. *)
Definition handler_outcome (w : World) : option (error * list bool) :=
  match establishConnectionRoutine client X w with
  | Some (e, w') => Some (e, map sock_open (socks w'))
  | None => None
  end.

End Scenario.

From Stdlib Require DecimalN.

(* ================================================================== *)
(** * main.go: parseUint16, with strconv.ParseUint *)
(* ================================================================== *)

Module strconv.

Inductive NumError :=
| ErrSyntax
| ErrRange
| ErrBase
| ErrBitSize.

Definition maxUint64 : Z := 2 ^ 64 - 1.

(** [lower(c)]: [c | ('x' - 'X')]. *)
Definition lower (c : Z) : Z := Z.lor c 0x20.

(** The digit that the byte [c] stands for, if any (the [switch] in the
    loop of [ParseUint]; with an explicit base an underscore is no digit). *)
Definition digit (c : Z) : option Z :=
  if (48 <=? c) && (c <=? 57) then Some (c - 48)
  else if (97 <=? lower c) && (lower c <=? 122) then Some (lower c - 97 + 10)
  else None.

(** The loop [for _, c := range []byte(s)] of [ParseUint]; [n] is the
    [uint64] accumulated so far. *)
Fixpoint ParseUint_loop (base maxVal cutoff n : Z) (s : list byte)
    : Z * option NumError :=
  match s with
  | [] => (n, None)
  | c :: rest =>
      match digit (byte_to_Z c) with
      | None => (0, Some ErrSyntax)
      | Some d =>
          if d >=? base then (0, Some ErrSyntax)
          else if n >=? cutoff then (maxVal, Some ErrRange)
          else
            let n := (n * base) mod 2 ^ 64 in
            let n1 := (n + d) mod 2 ^ 64 in
            if (n1 <? n) || (n1 >? maxVal) then (maxVal, Some ErrRange)
            else ParseUint_loop base maxVal cutoff n1 rest
      end
  end.

(** [strconv.ParseUint(s, base, bitSize)] for an explicit base.  The
    detection of a prefix, which base 0 asks for, is left out: base 0 is
    reported like an invalid base here. *)
Definition ParseUint (s : string) (base bitSize : Z) : Z * option NumError :=
  if (s =? "")%string then (0, Some ErrSyntax)
  else if negb ((2 <=? base) && (base <=? 36)) then (0, Some ErrBase)
  else
    let bitSize := if bitSize =? 0 then 64 else bitSize in
    if (bitSize <? 0) || (bitSize >? 64) then (0, Some ErrBitSize)
    else
      let cutoff := maxUint64 / base + 1 in
      let maxVal := (2 ^ bitSize mod 2 ^ 64 - 1) mod 2 ^ 64 in
      ParseUint_loop base maxVal cutoff 0 (list_byte_of_string s).

End strconv.

(** [parseUint16]: the port, or [log.Fatalf], which ends the process
    ([inr] holds the error it reports). *)
Definition parseUint16 (s : string) : N + strconv.NumError :=
  let '(val, err) := strconv.ParseUint s 10 16 in
  match err with
  | Some e => inr e
  | None => inl (Z.to_N (val mod 2 ^ 16))
  end.

(** The strings that [parseUint16] accepts, said directly: decimal digits
    only, at least one, and what they denote. *)
Definition is_digit (c : byte) : bool :=
  existsb (Byte.eqb c) (list_byte_of_string "0123456789").

(** The value of the digits [s] read after the value [n]. *)
Definition decimal_from (n : Z) (s : list byte) : Z :=
  fold_left (fun acc c => acc * 10 + (byte_to_Z c - 48)) s n.

Definition decimal_value (s : list byte) : Z := decimal_from 0 s.

(** The value of a decimal numeral, read after the value [n]. *)
Fixpoint uint_value (n : Z) (d : Decimal.uint) : Z :=
  match d with
  | Decimal.Nil => n
  | Decimal.D0 d => uint_value (n * 10) d
  | Decimal.D1 d => uint_value (n * 10 + 1) d
  | Decimal.D2 d => uint_value (n * 10 + 2) d
  | Decimal.D3 d => uint_value (n * 10 + 3) d
  | Decimal.D4 d => uint_value (n * 10 + 4) d
  | Decimal.D5 d => uint_value (n * 10 + 5) d
  | Decimal.D6 d => uint_value (n * 10 + 6) d
  | Decimal.D7 d => uint_value (n * 10 + 7) d
  | Decimal.D8 d => uint_value (n * 10 + 8) d
  | Decimal.D9 d => uint_value (n * 10 + 9) d
  end.

(* ================================================================== *)
(** * Vocabulary for the properties below *)
(* ================================================================== *)

(** [strings.ToUpper] on ASCII letters. *)
Definition upper_byte (c : byte) : byte :=
  let x := byte_to_Z c in
  if (97 <=? x) && (x <=? 122) then byte_of_Z (x - 32) else c.

Definition ToUpper (s : string) : string :=
  string_of_list_byte (map upper_byte (list_byte_of_string s)).

(** The error that [hex.Decode] reports on the upper-case spelling. *)
Definition upper_error (e : hex.error_) : hex.error_ :=
  match e with
  | hex.InvalidByteError b => hex.InvalidByteError (upper_byte b)
  | hex.ErrLength => hex.ErrLength
  end.

Definition is_lower_hex_digit (c : byte) : bool :=
  existsb (Byte.eqb c) hex.hextable.

(** The [Authenticate] message of a handshake under key [a] for challenge
    [ch], and the [Accept] message of a handler. *)
Definition AuthenticateMsg (a : Authenticator) (clientId : string) (ch : UUID)
    : ClientMessage :=
  mkClientMessage MtAuthenticate (GenerateAnswer a ch) 0%N uuid_Nil clientId.

Definition AcceptMsg (id : UUID) : ClientMessage :=
  mkClientMessage "Accept" "" 0%N id "".

Definition HelloMsg (port : N) : ClientMessage :=
  mkClientMessage MtHello "" port uuid_Nil "".

(** The runs of the handshake on a socket [s]: what it returns and what
    it leaves of the socket.  (That every run is one of these seven is
    [handshake_cases] below.) *)
Inductive handshake_run (a : Authenticator) (clientId : string) (s : Socket)
    : N * error -> Socket -> Prop :=
| hr_silent :
    sock_rx s = [] ->
    handshake_run a clientId s (0%N, Some "context deadline exceeded") s
| hr_recv_fails e rest :
    sock_rx s = RecvFails e :: rest ->
    handshake_run a clientId s (0%N, Some e) (rx_next rest s)
| hr_not_challenge m rest :
    sock_rx s = Arrives m :: rest ->
    sm_Type m <> MtChallenge ->
    handshake_run a clientId s (0%N, Some "no secret provided / invalid secret key")
                  (rx_next rest s)
| hr_send_fails m rest e more :
    sock_rx s = Arrives m :: rest ->
    sm_Type m = MtChallenge ->
    sock_txfail s = Some e :: more ->
    handshake_run a clientId s (0%N, Some e) (tx_failed (rx_next rest s))
| hr_silent_after m :
    sock_rx s = [Arrives m] ->
    sm_Type m = MtChallenge ->
    hd None (sock_txfail s) = None ->
    handshake_run a clientId s (0%N, Some "context deadline exceeded")
                  (tx_sent (AuthenticateMsg a clientId (sm_Challenge m))
                           (rx_next [] s))
| hr_recv_fails_after m e rest :
    sock_rx s = Arrives m :: RecvFails e :: rest ->
    sm_Type m = MtChallenge ->
    hd None (sock_txfail s) = None ->
    handshake_run a clientId s (0%N, Some e)
                  (rx_next rest
                     (tx_sent (AuthenticateMsg a clientId (sm_Challenge m))
                              (rx_next (RecvFails e :: rest) s)))
| hr_answered m1 m2 rest :
    sock_rx s = Arrives m1 :: Arrives m2 :: rest ->
    sm_Type m1 = MtChallenge ->
    hd None (sock_txfail s) = None ->
    handshake_run a clientId s
      (if (sm_Type m2 =? MtFreePort)%string
       then (sm_Port m2, None)
       else (0%N, Some "rejection response from server"))
      (rx_next rest
         (tx_sent (AuthenticateMsg a clientId (sm_Challenge m1))
                  (rx_next (Arrives m2 :: rest) s))).

(** What the control loop logs for a message, and the handler it starts. *)
Definition stray_log (m : ServerMessage) : list string :=
  if (sm_Type m =? MtHello)%string then ["Received an unexpected hello message"]
  else if (sm_Type m =? MtChallenge)%string
  then ["Received an unexpected challenge message"]
  else [].

Definition started (m : ServerMessage) : list UUID :=
  if (sm_Type m =? MtConnection)%string then [sm_Connection m] else [].

(** The messages that do not end the control loop. *)
Definition tolerated (m : ServerMessage) : Prop :=
  In (sm_Type m) [MtHello; MtChallenge; MtHeartbeat; MtConnection].

(** The world after the control loop of [c] has gone through [msgs] and
    left [rest] to be received. *)
Definition after_messages (c : Client) (msgs : list ServerMessage)
    (rest : list RecvEvent) (w : World) : World :=
  mkWorld (update_nth (conn (cc c)) (rx_next rest) (socks w)) (dials w) (copies w)
          (logs w ++ flat_map stray_log msgs)
          (goroutines w ++ flat_map started msgs).

(** The addresses a handler of [c] connects to. *)
Definition server_addr (c : Client) : string := (da c ++ ":" ++ fmt_d (sp c))%string.
Definition local_addr (c : Client) : string := (lh c ++ ":" ++ fmt_d (lp c))%string.

(** What a handler of [c] has sent when its handshake has succeeded: the
    answer to a challenge, or nothing when no authenticator is configured. *)
Definition handshake_done (c : Client) (sent : list ClientMessage) : Prop :=
  match auth c with
  | Some a => exists ch, sent = [AuthenticateMsg a (cid c) ch]
  | None => sent = []
  end.

(** The ways out of [establishConnectionRoutine]: the error returned and
    the sockets opened, as they are left.  (That every return is one of
    these five is [handler_cases] below.) *)
Inductive handler_exit (c : Client) (id : UUID) : error -> list Socket -> Prop :=
| he_unreachable err :
    handler_exit c id (Some ("failed to connect to " ++ da c ++ ": " ++ err)%string) []
| he_handshake err s1 :
    sock_addr s1 = server_addr c -> sock_open s1 = false ->
    (forall m, In m (sock_tx s1) -> cm_Type m = MtAuthenticate) ->
    handler_exit c id (Some ("client handshake failed: " ++ err)%string) [s1]
| he_accept err s1 :
    sock_addr s1 = server_addr c -> sock_open s1 = false ->
    handshake_done c (sock_tx s1) ->
    handler_exit c id (Some ("failed to send accept message: " ++ err)%string) [s1]
| he_local err s1 pre :
    sock_addr s1 = server_addr c -> sock_open s1 = false ->
    handshake_done c pre -> sock_tx s1 = pre ++ [AcceptMsg id] ->
    handler_exit c id
      (Some ("failed to connect to local host " ++ lh c ++ ":" ++ fmt_d (lp c)
             ++ ": " ++ err)%string) [s1]
| he_relay e s1 s2 pre :
    sock_addr s1 = server_addr c -> sock_open s1 = false ->
    handshake_done c pre -> sock_tx s1 = pre ++ [AcceptMsg id] ->
    sock_addr s2 = local_addr c -> sock_open s2 = false -> sock_tx s2 = [] ->
    handler_exit c id
      match e with
      | Some err => Some ("data transfer failed: " ++ err)%string
      | None => None
      end [s1; s2].

(* ================================================================== *)
(** * The libraries behave as documented *)
(* ================================================================== *)

Example sha256_abc :
  hex.EncodeToString (sha256.Sum256 (list_byte_of_string "abc"))
  = "ba7816bf8f01cfea414140de5dae2223b00361a396177a9cb410ff61f20015ad".
Proof. vm_compute. reflexivity. Qed.

Example sha256_empty :
  hex.EncodeToString (sha256.Sum256 [])
  = "e3b0c44298fc1c149afbf4c8996fb92427ae41e4649b934ca495991b7852b855".
Proof. vm_compute. reflexivity. Qed.

Example sha256_two_blocks :
  hex.EncodeToString (sha256.Sum256 (list_byte_of_string
    "abcdbcdecdefdefgefghfghighijhijkijkljklmklmnlmnomnopnopq"))
  = "248d6a61d20638b8e5c026930c3e6039a33ce45964ff2167f6ecedd419db06c1".
Proof. vm_compute. reflexivity. Qed.

(** RFC 4231, test case 2. *)
Example hmac_rfc4231_2 :
  hex.EncodeToString (hmac.Sum (list_byte_of_string "Jefe")
    (list_byte_of_string "what do ya want for nothing?"))
  = "5bdcc146bf60754e6a042426089575c75a003f089d2739839dec58b964ec3843".
Proof. vm_compute. reflexivity. Qed.

(** RFC 4231, test case 6: a key longer than the block is hashed first. *)
Example hmac_rfc4231_6 :
  hex.EncodeToString (hmac.Sum (repeat "170"%byte 131)
    (list_byte_of_string "Test Using Larger Than Block-Size Key - Hash Key First"))
  = "60e431591ee0b67f0d8a26aacbf5b77f8e0bc6213728c5140546040f0ee37f54".
Proof. vm_compute. reflexivity. Qed.

Section Hex.

(** Decoding undoes the two digits that encoding wrote for one byte. *)
Lemma Decode_Encode_cons (v : byte) (rest : list byte) :
  hex.Decode (hex.Encode [v] ++ rest)
  = (v :: fst (hex.Decode rest), snd (hex.Decode rest)).
Proof.
  destruct (hex.Decode rest) as [d e] eqn:E.
  destruct v; cbn [hex.Encode flat_map app]; simpl; rewrite E; reflexivity.
Qed.

Lemma Decode_Encode (b : list byte) : hex.Decode (hex.Encode b) = (b, None).
Proof.
  induction b as [|v b IH]; [reflexivity|].
  change (hex.Encode (v :: b)) with (hex.Encode [v] ++ hex.Encode b).
  rewrite Decode_Encode_cons, IH. reflexivity.
Qed.

Lemma DecodeString_EncodeToString (b : list byte) :
  hex.DecodeString (hex.EncodeToString b) = (b, None).
Proof.
  unfold hex.DecodeString, hex.EncodeToString.
  rewrite list_byte_of_string_of_list_byte. apply Decode_Encode.
Qed.

Lemma reverseHexTable_digit (c : byte) :
  (hex.reverseHexTable c >? 0x0f) = negb (is_hex_digit c).
Proof. destruct c; reflexivity. Qed.

(** [Decode] reports no error exactly on an even number of hex digits. *)
Lemma Decode_ok_iff_aux (n : nat) : forall src : list byte,
  (length src <= n)%nat ->
  (snd (hex.Decode src) = None <-> is_hex_bytes src = true).
Proof.
  induction n as [|n IH]; intros src Hlen.
  - destruct src; [|simpl in Hlen; lia]. split; reflexivity.
  - destruct src as [|p [|q rest]].
    + split; reflexivity.
    + unfold is_hex_bytes. simpl.
      destruct (hex.reverseHexTable p >? 15); simpl; split; discriminate.
    + assert (Hr : (length rest <= n)%nat) by (simpl in Hlen; lia).
      specialize (IH rest Hr).
      unfold is_hex_bytes in *.
      cbn [hex.Decode length Nat.even forallb].
      rewrite !reverseHexTable_digit.
      destruct (is_hex_digit p); simpl.
      2:{ rewrite andb_false_r. split; discriminate. }
      destruct (is_hex_digit q); simpl.
      2:{ rewrite andb_false_r. split; discriminate. }
      destruct (hex.Decode rest) as [d e]. simpl in *. exact IH.
Qed.

Lemma DecodeString_ok_iff (s : string) :
  snd (hex.DecodeString s) = None <-> is_hex_string s = true.
Proof.
  unfold hex.DecodeString, is_hex_string.
  apply (Decode_ok_iff_aux (length (list_byte_of_string s))). lia.
Qed.

End Hex.

Section Hmac.

Lemma Sum256_length (data : list byte) :
  length (sha256.Sum256 data) = sha256.Size.
Proof. reflexivity. Qed.

Lemma hmac_Sum_length (key msg : list byte) :
  length (hmac.Sum key msg) = sha256.Size.
Proof. reflexivity. Qed.

Lemma ConstantTimeCompare_length (x y : list byte) :
  length x <> length y -> hmac.ConstantTimeCompare x y = 0.
Proof.
  intros H. unfold hmac.ConstantTimeCompare.
  apply Nat.eqb_neq in H. rewrite H. reflexivity.
Qed.

Lemma xor_fold_same (x : list byte) :
  fold_left hmac.or_xor (combine x x) 0 = 0.
Proof.
  induction x as [|b x IH]; [reflexivity|].
  cbn [combine fold_left]. unfold hmac.or_xor at 2. cbn [fst snd].
  rewrite Z.lxor_nilpotent. exact IH.
Qed.

Lemma ConstantTimeCompare_refl (x : list byte) :
  hmac.ConstantTimeCompare x x = 1.
Proof.
  unfold hmac.ConstantTimeCompare.
  rewrite Nat.eqb_refl, xor_fold_same. reflexivity.
Qed.

Lemma Equal_refl (x : list byte) : hmac.Equal x x = true.
Proof. unfold hmac.Equal. rewrite ConstantTimeCompare_refl. reflexivity. Qed.

Lemma Equal_length (x y : list byte) :
  length x <> length y -> hmac.Equal x y = false.
Proof.
  intros H. unfold hmac.Equal.
  rewrite ConstantTimeCompare_length by exact H. reflexivity.
Qed.

End Hmac.
(* ================================================================== *)
(** * Authenticator: answers *)
(* ================================================================== *)

Section Answers.

Variable a : Authenticator.
Variable ch : UUID.

Lemma ValidateAnswer_GenerateAnswer :
  ValidateAnswer a ch (GenerateAnswer a ch) = true.
Proof.
  unfold ValidateAnswer, GenerateAnswer.
  rewrite DecodeString_EncodeToString. apply Equal_refl.
Qed.

(** What [ValidateAnswer] computes once the answer has decoded. *)
Lemma ValidateAnswer_decoded (ans : string) (b : list byte) :
  hex.DecodeString ans = (b, None) ->
  ValidateAnswer a ch ans = hmac.Equal (hmac.Sum (k a) ch) b.
Proof. intros H. unfold ValidateAnswer. rewrite H. reflexivity. Qed.

Lemma ValidateAnswer_malformed (ans : string) :
  is_hex_string ans = false -> ValidateAnswer a ch ans = false.
Proof.
  intros H. unfold ValidateAnswer.
  destruct (hex.DecodeString ans) as [b [e|]] eqn:E; [reflexivity|].
  assert (Hok : snd (hex.DecodeString ans) = None) by (rewrite E; reflexivity).
  apply DecodeString_ok_iff in Hok. congruence.
Qed.

Lemma ValidateAnswer_wrong_length (ans : string) (b : list byte) :
  hex.DecodeString ans = (b, None) ->
  length b <> sha256.Size ->
  ValidateAnswer a ch ans = false.
Proof.
  intros H Hlen. rewrite (ValidateAnswer_decoded _ _ H).
  apply Equal_length. rewrite hmac_Sum_length. congruence.
Qed.

End Answers.

(** C1: for every secret and every challenge [c], the answer generated
    for [c] under the key derived from the secret validates for [c] under
    that same key: [ValidateAnswer(c, GenerateAnswer(c))] is [true]. *)
Theorem C1_generated_answer_validates (secret : string) (c : UUID) :
  ValidateAnswer (NewAuthenticator secret) c
    (GenerateAnswer (NewAuthenticator secret) c) = true.
Proof. apply ValidateAnswer_GenerateAnswer. Qed.

(** C7: [ValidateAnswer] is a total function to [bool] and fails closed.
    For every key and challenge it is [false] on an answer that is not
    valid hex (an odd number of characters, or a character that is no hex
    digit), on the empty answer, and on valid hex that decodes to a number
    of bytes other than the 32 of an HMAC-SHA256 digest. *)
Theorem C7_ValidateAnswer_fails_closed (a : Authenticator) (ch : UUID) :
  (forall ans, is_hex_string ans = false -> ValidateAnswer a ch ans = false)
  /\ ValidateAnswer a ch "" = false
  /\ (forall ans b, hex.DecodeString ans = (b, None) ->
        length b <> sha256.Size -> ValidateAnswer a ch ans = false).
Proof.
  split; [|split].
  - apply ValidateAnswer_malformed.
  - apply (ValidateAnswer_wrong_length a ch "" []); [reflexivity|discriminate].
  - apply ValidateAnswer_wrong_length.
Qed.

(** C7 on three answers for the key of secret [hunter2]: a letter that is
    no hex digit, an odd number of digits, and four valid digits. *)
Lemma C7_ValidateAnswer_fails_closed_witness :
  ValidateAnswer (NewAuthenticator "hunter2") uuid_Nil "zz" = false
  /\ ValidateAnswer (NewAuthenticator "hunter2") uuid_Nil "abc" = false
  /\ ValidateAnswer (NewAuthenticator "hunter2") uuid_Nil "" = false
  /\ ValidateAnswer (NewAuthenticator "hunter2") uuid_Nil "c0ffee" = false.
Proof.
  destruct (C7_ValidateAnswer_fails_closed (NewAuthenticator "hunter2") uuid_Nil)
    as [Hbad [Hempty Hlen]].
  split; [|split; [|split]].
  - apply Hbad. reflexivity.
  - apply Hbad. reflexivity.
  - exact Hempty.
  - apply (Hlen "c0ffee" ["192"%byte; "255"%byte; "238"%byte]).
    + reflexivity.
    + discriminate.
Defined.
(* ================================================================== *)
(** * hmac.Equal is equality *)
(* ================================================================== *)

Section ConstantTime.

Lemma byte_to_Z_range (b : byte) : 0 <= byte_to_Z b < 256.
Proof.
  unfold byte_to_Z. pose proof (Byte.to_N_bounded b). lia.
Qed.

Lemma byte_to_Z_inj (a b : byte) : byte_to_Z a = byte_to_Z b -> a = b.
Proof.
  unfold byte_to_Z. intros H. apply N2Z.inj in H.
  assert (E : Byte.of_N (Byte.to_N a) = Byte.of_N (Byte.to_N b)) by now rewrite H.
  rewrite !Byte.of_to_N in E. now injection E.
Qed.

Lemma uint8_byte (b : byte) : is_uint8 (byte_to_Z b).
Proof. apply Z.mod_small. pose proof (byte_to_Z_range b). lia. Qed.

Lemma uint8_lor (a b : Z) : is_uint8 a -> is_uint8 b -> is_uint8 (Z.lor a b).
Proof.
  unfold is_uint8. rewrite <- !Z.land_ones by lia. intros Ha Hb.
  now rewrite Z.land_lor_distr_l, Ha, Hb.
Qed.

Lemma land_lxor_distr (a b c : Z) :
  Z.land (Z.lxor a b) c = Z.lxor (Z.land a c) (Z.land b c).
Proof.
  apply Z.bits_inj'. intros n _.
  rewrite Z.land_spec, !Z.lxor_spec, !Z.land_spec.
  now destruct (Z.testbit a n), (Z.testbit b n), (Z.testbit c n).
Qed.

Lemma uint8_lxor (a b : Z) : is_uint8 a -> is_uint8 b -> is_uint8 (Z.lxor a b).
Proof.
  unfold is_uint8. rewrite <- !Z.land_ones by lia. intros Ha Hb.
  now rewrite land_lxor_distr, Ha, Hb.
Qed.

Lemma ConstantTimeByteEq_zero (v : Z) :
  is_uint8 v -> (hmac.ConstantTimeByteEq v 0 = 1 <-> v = 0).
Proof.
  unfold is_uint8, hmac.ConstantTimeByteEq, u32. intros Hv.
  assert (R : 0 <= v < 2 ^ 8) by (rewrite <- Hv; apply Z.mod_pos_bound; lia).
  rewrite Z.lxor_0_r. split.
  - intros H. destruct (Z.eq_dec v 0) as [|Hne]; [assumption|exfalso].
    rewrite Z.mod_small, Z.shiftr_div_pow2, Z.div_small in H; lia.
  - intros ->. reflexivity.
Qed.

Lemma fold_step (l : list (byte * byte)) : forall v : Z,
  is_uint8 v ->
  is_uint8 (fold_left hmac.or_xor l v)
  /\ (fold_left hmac.or_xor l v = 0 <-> v = 0 /\ Forall (fun xy => fst xy = snd xy) l).
Proof.
  induction l as [|[x y] l IH]; intros v Hv; simpl.
  - split; [assumption|]. split; [now split|tauto].
  - assert (Hs : is_uint8 (hmac.or_xor v (x, y))).
    { apply uint8_lor; [assumption|]. apply uint8_lxor; apply uint8_byte. }
    destruct (IH _ Hs) as [Hf Hz]. split; [assumption|].
    rewrite Hz. unfold hmac.or_xor at 1. simpl. rewrite Z.lor_eq_0_iff, Z.lxor_eq_0_iff.
    split.
    + intros [[H0 Hxy] Hl]. apply byte_to_Z_inj in Hxy. split; [assumption|].
      now constructor.
    + intros [H0 Hl]. inversion Hl as [|? ? Hxy Hl']; subst. simpl in Hxy.
      subst. auto.
Qed.

Lemma combine_eq (x : list byte) : forall y : list byte,
  length x = length y ->
  Forall (fun xy => fst xy = snd xy) (combine x y) -> x = y.
Proof.
  induction x as [|a x IH]; intros [|b y] Hlen H; simpl in *;
    try discriminate; [reflexivity|].
  inversion H as [|? ? Hab H']; subst. simpl in Hab. subst.
  f_equal. apply IH; [lia|assumption].
Qed.

Lemma Equal_true_iff (mac1 mac2 : list byte) :
  hmac.Equal mac1 mac2 = true <-> mac1 = mac2.
Proof.
  split; [|intros ->; apply Equal_refl].
  unfold hmac.Equal, hmac.ConstantTimeCompare. intros H.
  apply Z.eqb_eq in H.
  destruct (Nat.eqb_spec (length mac1) (length mac2)) as [Hlen|_];
    [|discriminate]. cbn [negb] in H.
  assert (F0 : is_uint8 0) by reflexivity.
  destruct (fold_step (combine mac1 mac2) 0 F0) as [Hf Hz].
  apply (ConstantTimeByteEq_zero _ Hf) in H.
  apply Hz in H. now apply combine_eq.
Qed.

End ConstantTime.

Section Encoding.

Lemma string_of_list_byte_inj (x y : list byte) :
  string_of_list_byte x = string_of_list_byte y -> x = y.
Proof.
  intros H. rewrite <- (list_byte_of_string_of_list_byte x),
    <- (list_byte_of_string_of_list_byte y). now rewrite H.
Qed.

End Encoding.

(** An answer generated under one key validates under another exactly
    when the two keys give the challenge the same HMAC-SHA256. *)
Lemma ValidateAnswer_other_key (a1 a2 : Authenticator) (ch : UUID) :
  ValidateAnswer a2 ch (GenerateAnswer a1 ch) = true
  <-> hmac.Sum (k a2) ch = hmac.Sum (k a1) ch.
Proof.
  unfold ValidateAnswer, GenerateAnswer.
  rewrite DecodeString_EncodeToString. apply Equal_true_iff.
Qed.

Example ValidateAnswer_other_secret :
  ValidateAnswer (NewAuthenticator "hunter3") Scenario.X
    (GenerateAnswer (NewAuthenticator "hunter2") Scenario.X) = false.
Proof. vm_compute. reflexivity. Qed.
(* ================================================================== *)
(** * The environment: equations of the primitives *)
(* ================================================================== *)

Section Lists.

Context {A : Type}.

Lemma update_nth_length (i : nat) (f : A -> A) (l : list A) :
  length (update_nth i f l) = length l.
Proof.
  revert i; induction l as [|x l IH]; intros [|i]; simpl; auto.
Qed.

Lemma nth_error_update_nth (i j : nat) (f : A -> A) (l : list A) :
  nth_error (update_nth i f l) j
  = if Nat.eqb i j then option_map f (nth_error l j) else nth_error l j.
Proof.
  revert i j; induction l as [|x l IH]; intros i j.
  - destruct (Nat.eqb i j), i, j; reflexivity.
  - destruct i, j; simpl; auto.
Qed.

Lemma map_update_nth {B} (g : A -> B) (i : nat) (f : A -> A) (l : list A) :
  (forall x, g (f x) = g x) -> map g (update_nth i f l) = map g l.
Proof.
  intros Hg. revert i; induction l as [|x l IH]; intros [|i]; simpl;
    rewrite ?Hg, ?IH; auto.
Qed.

Lemma firstn_update_nth (n i : nat) (f : A -> A) (l : list A) :
  (n <= i)%nat -> firstn n (update_nth i f l) = firstn n l.
Proof.
  revert n i; induction l as [|x l IH]; intros [|n] [|i] H; simpl; auto;
    try lia.
  f_equal. apply IH. lia.
Qed.

Lemma update_nth_app_last (l : list A) (x : A) (f : A -> A) (tail : list A) :
  update_nth (length l) f (l ++ x :: tail) = l ++ f x :: tail.
Proof. induction l as [|y l IH]; simpl; [reflexivity|]. now rewrite IH. Qed.

Lemma nth_error_app_last (l : list A) (x : A) (tail : list A) :
  nth_error (l ++ x :: tail) (length l) = Some x.
Proof. induction l as [|y l IH]; simpl; auto. Qed.

End Lists.

Section Monad.

Context {A B : Type}.

Lemma bind_Some (m : M A) (f : A -> M B) (w w1 : World) (a : A) :
  m w = Some (a, w1) -> bind m f w = f a w1.
Proof. intros H. unfold bind. now rewrite H. Qed.

Lemma bind_inv (m : M A) (f : A -> M B) (w w' : World) (b : B) :
  bind m f w = Some (b, w') ->
  exists a w1, m w = Some (a, w1) /\ f a w1 = Some (b, w').
Proof.
  unfold bind. destruct (m w) as [[a w1]|]; [|discriminate].
  intros H. now exists a, w1.
Qed.

Lemma bind_None (m : M A) (f : A -> M B) (w : World) :
  m w = None -> bind m f w = None.
Proof. intros H. unfold bind. now rewrite H. Qed.

End Monad.

(** Decompose a run [bind m f w = Some _] found among the hypotheses. *)
Tactic Notation "unbind" hyp(H) "as" ident(a) ident(w) ident(E) :=
  apply bind_inv in H; destruct H as (a & w & E & H).

Ltac ret_inv H :=
  unfold ret in H; injection H as <- <-.

Section Primitives.

Variable stream : Codec.

Lemma socks_on_sock (c : net_conn) (f : Socket -> Socket) (w : World) :
  socks (on_sock c f w) = update_nth c f (socks w).
Proof. reflexivity. Qed.

Lemma lookup_on_sock (c : net_conn) (f : Socket -> Socket) (w : World) (s : Socket) :
  nth_error (socks w) c = Some s ->
  nth_error (socks (on_sock c f w)) c = Some (f s).
Proof.
  intros H. rewrite socks_on_sock, nth_error_update_nth, Nat.eqb_refl, H.
  reflexivity.
Qed.

Lemma Recv_arrives (ctx : Context_) (w : World) (s : Socket)
    (m : ServerMessage) (rest : list RecvEvent) :
  nth_error (socks w) (conn stream) = Some s ->
  sock_rx s = Arrives m :: rest ->
  Recv stream ctx w = Some (inl m, on_sock (conn stream) (rx_next rest) w).
Proof. intros H Hrx. unfold Recv. now rewrite H, Hrx. Qed.

Lemma Recv_fails (ctx : Context_) (w : World) (s : Socket)
    (e : string) (rest : list RecvEvent) :
  nth_error (socks w) (conn stream) = Some s ->
  sock_rx s = RecvFails e :: rest ->
  Recv stream ctx w = Some (inr e, on_sock (conn stream) (rx_next rest) w).
Proof. intros H Hrx. unfold Recv. now rewrite H, Hrx. Qed.

Lemma Send_ok (msg : ClientMessage) (w : World) (s : Socket) :
  nth_error (socks w) (conn stream) = Some s ->
  hd None (sock_txfail s) = None ->
  Send stream msg w = Some (None, on_sock (conn stream) (tx_sent msg) w).
Proof.
  intros H Htx. unfold Send. rewrite H.
  destruct (sock_txfail s) as [|[e|] t]; simpl in Htx; congruence.
Qed.

End Primitives.

Section Effects.

Lemma update_nth_id {A} (i : nat) (l : list A) : update_nth i (fun x => x) l = l.
Proof. revert i; induction l as [|x l IH]; intros [|i]; simpl; rewrite ?IH; auto. Qed.

Lemma update_nth_twice {A} (i : nat) (f g : A -> A) (l : list A) :
  update_nth i g (update_nth i f l) = update_nth i (fun x => g (f x)) l.
Proof. revert i; induction l as [|x l IH]; intros [|i]; simpl; rewrite ?IH; auto. Qed.

Lemma on_sock_id (c : net_conn) (w : World) : on_sock c (fun s => s) w = w.
Proof. destruct w. unfold on_sock. simpl. now rewrite update_nth_id. Qed.

Lemma on_sock_twice (c : net_conn) (f g : Socket -> Socket) (w : World) :
  on_sock c g (on_sock c f w) = on_sock c (fun s => g (f s)) w.
Proof. unfold on_sock. simpl. now rewrite update_nth_twice. Qed.

Lemma touches_refl (c : net_conn) (w : World) : touches c w w.
Proof. exists (fun s => s). split; [|split]; auto. symmetry. apply on_sock_id. Qed.

Lemma touches_on_sock (c : net_conn) (f : Socket -> Socket) (w : World) :
  (forall s, sock_open (f s) = sock_open s) ->
  touches c w (on_sock c f w).
Proof. intros H. now exists f. Qed.

Lemma touches_trans (c : net_conn) (w1 w2 w3 : World) :
  touches c w1 w2 -> touches c w2 w3 -> touches c w1 w3.
Proof.
  intros (f & -> & Hf) (g & -> & Hg).
  exists (fun s => g (f s)). split.
  - apply on_sock_twice.
  - intros s. now rewrite Hg, Hf.
Qed.

Lemma Recv_touches (stream : Codec) (ctx : Context_) (w w' : World)
    (r : ServerMessage + string) :
  Recv stream ctx w = Some (r, w') -> touches (conn stream) w w'.
Proof.
  unfold Recv. intros H.
  destruct (nth_error (socks w) (conn stream)) as [s|].
  - destruct (sock_rx s) as [|[m|e] rest].
    + destruct ctx; [discriminate|]. injection H as <- <-. apply touches_refl.
    + injection H as <- <-. now apply touches_on_sock.
    + injection H as <- <-. now apply touches_on_sock.
  - injection H as <- <-. apply touches_refl.
Qed.

Lemma Send_touches (stream : Codec) (msg : ClientMessage) (w w' : World)
    (e : error) :
  Send stream msg w = Some (e, w') -> touches (conn stream) w w'.
Proof.
  unfold Send. intros H.
  destruct (nth_error (socks w) (conn stream)) as [s|].
  - destruct (sock_txfail s) as [|[x|] t]; injection H as <- <-;
      now apply touches_on_sock.
  - injection H as <- <-. apply touches_refl.
Qed.

(** The handshake only ever uses the channel it was given. *)
Lemma PerformClientHandshake_touches (a : Authenticator) (stream : Codec)
    (clientId : string) (w w' : World) (r : N * error) :
  PerformClientHandshake a stream clientId w = Some (r, w') ->
  touches (conn stream) w w'.
Proof.
  unfold PerformClientHandshake. intros H.
  unbind H as r1 w1 Hrecv. apply Recv_touches in Hrecv.
  destruct r1 as [msg|err]; [|ret_inv H; exact Hrecv].
  destruct (negb (sm_Type msg =? MtChallenge)%string); [ret_inv H; exact Hrecv|].
  unbind H as e w2 Hsend. apply Send_touches in Hsend.
  pose proof (touches_trans _ _ _ _ Hrecv Hsend) as T.
  destruct e as [err|]; [ret_inv H; exact T|].
  unbind H as r2 w3 Hrecv2. apply Recv_touches in Hrecv2.
  pose proof (touches_trans _ _ _ _ T Hrecv2) as T'.
  destruct r2 as [msg'|err]; [|ret_inv H; exact T'].
  destruct (negb (sm_Type msg' =? MtFreePort)%string); ret_inv H; exact T'.
Qed.

(** With a deadline on every receive, the handshake always returns. *)
Lemma Recv_deadline_returns (stream : Codec) (w : World) :
  exists r w', Recv stream WithTimeout w = Some (r, w').
Proof.
  unfold Recv. destruct (nth_error (socks w) (conn stream)) as [s|]; eauto.
  destruct (sock_rx s) as [|[m|e] rest]; eauto.
Qed.

Lemma Send_returns (stream : Codec) (msg : ClientMessage) (w : World) :
  exists e w', Send stream msg w = Some (e, w').
Proof.
  unfold Send. destruct (nth_error (socks w) (conn stream)) as [s|]; eauto.
  destruct (sock_txfail s) as [|[x|] t]; eauto.
Qed.

Lemma PerformClientHandshake_returns (a : Authenticator) (stream : Codec)
    (clientId : string) (w : World) :
  exists r w', PerformClientHandshake a stream clientId w = Some (r, w').
Proof.
  unfold PerformClientHandshake.
  destruct (Recv_deadline_returns stream w) as (r & w1 & E).
  rewrite (bind_Some _ _ _ _ _ E).
  destruct r as [msg|err]; [|unfold ret; eauto].
  destruct (negb (sm_Type msg =? MtChallenge)%string); [unfold ret; eauto|].
  destruct (Send_returns stream
    (mkClientMessage MtAuthenticate (GenerateAnswer a (sm_Challenge msg)) 0%N
       uuid_Nil clientId) w1) as (e & w2 & E2).
  rewrite (bind_Some _ _ _ _ _ E2).
  destruct e as [err|]; [unfold ret; eauto|].
  destruct (Recv_deadline_returns stream w2) as (r & w3 & E3).
  rewrite (bind_Some _ _ _ _ _ E3).
  destruct r as [msg'|err]; [|unfold ret; eauto].
  destruct (negb (sm_Type msg' =? MtFreePort)%string); unfold ret; eauto.
Qed.

End Effects.
(* ================================================================== *)
(** * Authenticator: the handshake *)
(* ================================================================== *)

Section Handshake.

Variable a : Authenticator.
Variable stream : Codec.
Variable clientId : string.

Lemma handshake_first_not_challenge (w : World) (s : Socket)
    (m : ServerMessage) (rest : list RecvEvent) :
  nth_error (socks w) (conn stream) = Some s ->
  sock_rx s = Arrives m :: rest ->
  sm_Type m <> MtChallenge ->
  PerformClientHandshake a stream clientId w
  = Some ((0%N, Some "no secret provided / invalid secret key"),
          on_sock (conn stream) (rx_next rest) w).
Proof.
  intros Hs Hrx Hty. unfold PerformClientHandshake.
  rewrite (bind_Some _ _ _ _ _ (Recv_arrives stream _ w s m rest Hs Hrx)).
  apply String.eqb_neq in Hty. rewrite Hty. reflexivity.
Qed.

(** Challenge, a successful send, then a second message [m2]. *)
Lemma handshake_second_message (w : World) (s : Socket)
    (m1 m2 : ServerMessage) (rest : list RecvEvent) :
  nth_error (socks w) (conn stream) = Some s ->
  sock_rx s = Arrives m1 :: Arrives m2 :: rest ->
  sm_Type m1 = MtChallenge ->
  hd None (sock_txfail s) = None ->
  PerformClientHandshake a stream clientId w
  = Some (if (sm_Type m2 =? MtFreePort)%string
          then (sm_Port m2, None)
          else (0%N, Some "rejection response from server"),
          on_sock (conn stream)
            (fun s => rx_next rest (tx_sent (mkClientMessage MtAuthenticate (GenerateAnswer a (sm_Challenge m1))
       0%N uuid_Nil clientId) s)) w).
Proof.
  intros Hs Hrx Hty Htx. unfold PerformClientHandshake.
  rewrite (bind_Some _ _ _ _ _ (Recv_arrives stream _ w s m1 _ Hs Hrx)).
  rewrite Hty, String.eqb_refl. cbn [negb].
  pose proof (lookup_on_sock _ (rx_next (Arrives m2 :: rest)) _ _ Hs) as Hs1.
  rewrite (bind_Some _ _ _ _ _
             (Send_ok stream (mkClientMessage MtAuthenticate (GenerateAnswer a (sm_Challenge m1))
       0%N uuid_Nil clientId) _ _ Hs1 Htx)).
  pose proof (lookup_on_sock _ (tx_sent (mkClientMessage MtAuthenticate (GenerateAnswer a (sm_Challenge m1))
       0%N uuid_Nil clientId)) _ _ Hs1)
    as Hs2.
  rewrite (bind_Some _ _ _ _ _
             (Recv_arrives stream _ _ _ m2 rest Hs2 eq_refl)).
  rewrite !on_sock_twice.
  destruct (sm_Type m2 =? MtFreePort)%string; reflexivity.
Qed.

End Handshake.

(** C5: whenever the first message received on the channel has a tag
    other than [Challenge], [PerformClientHandshake] fails with the error
    [no secret provided / invalid secret key], and on no socket has anything
    been sent: the only change is that the message was consumed. *)
Theorem C5_first_message_must_be_challenge
    (a : Authenticator) (stream : Codec) (clientId : string) (w : World)
    (s : Socket) (m : ServerMessage) (rest : list RecvEvent) :
  nth_error (socks w) (conn stream) = Some s ->
  sock_rx s = Arrives m :: rest ->
  sm_Type m <> MtChallenge ->
  exists w',
    PerformClientHandshake a stream clientId w
    = Some ((0%N, Some "no secret provided / invalid secret key"), w')
    /\ map sock_tx (socks w') = map sock_tx (socks w)
    /\ w' = on_sock (conn stream) (rx_next rest) w.
Proof.
  intros Hs Hrx Hty. eexists. split; [|split; [|reflexivity]].
  - now apply (handshake_first_not_challenge a stream clientId w s m rest).
  - rewrite socks_on_sock. now apply map_update_nth.
Qed.

(** C6: when the first message is a challenge and the [Authenticate]
    message has been sent, the second message decides: with any tag but
    [FreePort] the handshake fails with [rejection response from server];
    with the tag [FreePort] it succeeds and returns the port of that very
    message.  Either way exactly the [Authenticate] message with the
    generated answer and the client id was sent. *)
Theorem C6_second_message_decides
    (a : Authenticator) (stream : Codec) (clientId : string) (w : World)
    (s : Socket) (m1 m2 : ServerMessage) (rest : list RecvEvent) :
  nth_error (socks w) (conn stream) = Some s ->
  sock_rx s = Arrives m1 :: Arrives m2 :: rest ->
  sm_Type m1 = MtChallenge ->
  hd None (sock_txfail s) = None ->
  exists r w' s',
    PerformClientHandshake a stream clientId w = Some (r, w')
    /\ (sm_Type m2 <> MtFreePort ->
        r = (0%N, Some "rejection response from server"))
    /\ (sm_Type m2 = MtFreePort -> r = (sm_Port m2, None))
    /\ nth_error (socks w') (conn stream) = Some s'
    /\ sock_tx s' = sock_tx s ++
         [mkClientMessage MtAuthenticate (GenerateAnswer a (sm_Challenge m1))
            0%N uuid_Nil clientId]
    /\ sock_rx s' = rest.
Proof.
  intros Hs Hrx Hty Htx.
  do 3 eexists. split; [|split; [|split; [|split; [|split]]]].
  - now apply (handshake_second_message a stream clientId w s m1 m2 rest).
  - intros H. apply String.eqb_neq in H. rewrite H. reflexivity.
  - intros H. rewrite H. reflexivity.
  - exact (lookup_on_sock _ _ _ _ Hs).
  - reflexivity.
  - reflexivity.
Qed.
(* ================================================================== *)
(** * Control session: construction *)
(* ================================================================== *)

Section Construction.

Variables (sp lp : N) (lh da cid secret : string).

Lemma processInitialServerMessage_hello (msg : ServerMessage) :
  sm_Type msg = MtHello ->
  processInitialServerMessage msg = (sm_Port msg, None).
Proof. intros H. unfold processInitialServerMessage. now rewrite H. Qed.

Lemma processInitialServerMessage_challenge (msg : ServerMessage) :
  sm_Type msg = MtChallenge ->
  processInitialServerMessage msg
  = (0%N, Some "server requires authentication, but no client secret was provided").
Proof. intros H. unfold processInitialServerMessage. now rewrite H. Qed.

(** The first four steps of [NewClient] against a server that sends a
    challenge, grants a port and then sends [m3]: the world in which
    [processInitialServerMessage] looks at [m3]. *)
Lemma NewClient_until_reply (w : World) (m1 m2 m3 : ServerMessage)
    (rest : list RecvEvent) (txf : list error) (more : list DialEvent) :
  dials w = Connects (Arrives m1 :: Arrives m2 :: Arrives m3 :: rest) txf :: more ->
  sm_Type m1 = MtChallenge ->
  sm_Type m2 = MtFreePort ->
  hd None txf = None ->
  hd None (tl txf) = None ->
  exists w3 s3,
    NewClient sp lh lp da cid secret w
    = match processInitialServerMessage m3 with
      | (_, Some err) => ret (None, Some err)
      | (rp, None) =>
          log_ ("Connected to server at " ++ da ++ ":" ++ fmt_d rp)%string ;;;
          log_ ("Listening for connection to redirect" ++ nl)%string ;;;
          ret (Some (mkClient sp (NewCodec (length (socks w))) da lh lp rp
                       (Some (NewAuthenticator secret)) cid), None)
      end w3
    /\ nth_error (socks w3) (length (socks w)) = Some s3
    /\ sock_tx s3 =
         [mkClientMessage MtAuthenticate
            (GenerateAnswer (NewAuthenticator secret) (sm_Challenge m1))
            0%N uuid_Nil cid;
          mkClientMessage MtHello "" (sm_Port m2) uuid_Nil ""].
Proof.
  intros Hd Ht1 Ht2 Htx1 Htx2.
  set (c := length (socks w)).
  set (sk := mkSocket (da ++ ":" ++ fmt_d sp)%string true
               (Arrives m1 :: Arrives m2 :: Arrives m3 :: rest) txf []).
  assert (Hdial : establishConnectionWithTimeout da sp w
                  = Some (inl c, dialed [sk] w)).
  { unfold establishConnectionWithTimeout, bind, DialTimeout. now rewrite Hd. }
  assert (Hs0 : nth_error (socks (dialed [sk] w)) (conn (NewCodec c)) = Some sk).
  { apply (nth_error_app_last (socks w) sk []). }
  pose proof (handshake_second_message (NewAuthenticator secret) (NewCodec c) cid
                _ sk m1 m2 _ Hs0 eq_refl Ht1 Htx1) as Hhs.
  rewrite Ht2, String.eqb_refl in Hhs.
  pose proof (lookup_on_sock _
    (fun s => rx_next (Arrives m3 :: rest)
       (tx_sent (mkClientMessage MtAuthenticate
          (GenerateAnswer (NewAuthenticator secret) (sm_Challenge m1))
          0%N uuid_Nil cid) s)) _ _ Hs0) as Hs1.
  pose proof (Send_ok (NewCodec c)
    (mkClientMessage MtHello "" (sm_Port m2) uuid_Nil "") _ _ Hs1 Htx2) as Hsend.
  pose proof (lookup_on_sock _
    (tx_sent (mkClientMessage MtHello "" (sm_Port m2) uuid_Nil "")) _ _ Hs1) as Hs2.
  pose proof (Recv_arrives (NewCodec c) WithTimeout _ _ m3 rest Hs2 eq_refl) as Hrecv.
  pose proof (lookup_on_sock _ (rx_next rest) _ _ Hs2) as Hs3.
  do 2 eexists. split; [|split].
  - unfold NewClient.
    rewrite (bind_Some _ _ _ _ _ Hdial).
    rewrite (bind_Some _ _ _ _ _ Hhs).
    rewrite (bind_Some _ _ _ _ _ Hsend).
    rewrite (bind_Some _ _ _ _ _ Hrecv).
    reflexivity.
  - exact Hs3.
  - reflexivity.
Qed.

End Construction.

(** C2: the scripted establishment.  The server is reached, sends
    [Challenge(X)], then a [FreePort] grant of port [p], then a third
    message [m3], and no send fails.  The client has then sent, in this
    order, [Authenticate] with [hex(HMAC-SHA256(SHA256(secret), X))] and
    the client id, and [Hello(p)].  If [m3] is [Hello(q)], [NewClient]
    returns a session whose [RemotePort] is [q] (9090 for [Hello(9090)]);
    if [m3] is a [Challenge], it fails with [server requires
    authentication, but no client secret was provided]. *)
Theorem C2_scripted_establishment
    (sp lp : N) (lh da cid secret : string) (w : World)
    (m1 m2 m3 : ServerMessage) (rest : list RecvEvent) (txf : list error)
    (more : list DialEvent) :
  dials w = Connects (Arrives m1 :: Arrives m2 :: Arrives m3 :: rest) txf :: more ->
  sm_Type m1 = MtChallenge ->
  sm_Type m2 = MtFreePort ->
  hd None txf = None ->
  hd None (tl txf) = None ->
  exists r w' s',
    NewClient sp lh lp da cid secret w = Some (r, w')
    /\ nth_error (socks w') (length (socks w)) = Some s'
    /\ sock_tx s' =
         [mkClientMessage MtAuthenticate
            (hex.EncodeToString
               (hmac.Sum (sha256.Sum256 (list_byte_of_string secret))
                         (sm_Challenge m1)))
            0%N uuid_Nil cid;
          mkClientMessage MtHello "" (sm_Port m2) uuid_Nil ""]
    /\ (sm_Type m3 = MtHello ->
        exists c, r = (Some c, None) /\ RemotePort c = sm_Port m3)
    /\ (sm_Type m3 = MtChallenge ->
        r = (None, Some "server requires authentication, but no client secret was provided")).
Proof.
  intros Hd Ht1 Ht2 Htx1 Htx2.
  destruct (NewClient_until_reply sp lp lh da cid secret w m1 m2 m3 rest txf more
              Hd Ht1 Ht2 Htx1 Htx2) as (w3 & s3 & Hrun & Hs3 & Htx).
  destruct (processInitialServerMessage m3) as [rp0 [err|]] eqn:Hinit.
  - exists (None, Some err), w3, s3.
    split; [exact Hrun|]. split; [exact Hs3|]. split; [exact Htx|]. split.
    + intros H. rewrite (processInitialServerMessage_hello _ H) in Hinit.
      discriminate.
    + intros H. rewrite (processInitialServerMessage_challenge _ H) in Hinit.
      now injection Hinit as <- <-.
  - eexists _, _, s3.
    split; [exact Hrun|]. split; [exact Hs3|]. split; [exact Htx|]. split.
    + intros H. rewrite (processInitialServerMessage_hello _ H) in Hinit.
      injection Hinit as <-. eexists. split; reflexivity.
    + intros H. rewrite (processInitialServerMessage_challenge _ H) in Hinit.
      discriminate.
Qed.
(* ================================================================== *)
(** * Control session: the main loop *)
(* ================================================================== *)

Section Dispatch.

Variable c : Client.

Lemma processServerMessage_heartbeat (msg : ServerMessage) :
  sm_Type msg = MtHeartbeat -> processServerMessage c msg = ret None.
Proof. intros H. unfold processServerMessage. now rewrite H. Qed.

Lemma processServerMessage_hello (msg : ServerMessage) (w : World) :
  sm_Type msg = MtHello ->
  processServerMessage c msg w
  = Some (None, add_log "Received an unexpected hello message" w).
Proof. intros H. unfold processServerMessage. now rewrite H. Qed.

Lemma processServerMessage_challenge (msg : ServerMessage) (w : World) :
  sm_Type msg = MtChallenge ->
  processServerMessage c msg w
  = Some (None, add_log "Received an unexpected challenge message" w).
Proof. intros H. unfold processServerMessage. now rewrite H. Qed.

Lemma processServerMessage_connection (msg : ServerMessage) (w : World) :
  sm_Type msg = MtConnection ->
  processServerMessage c msg w
  = Some (None, add_goroutine (sm_Connection msg) w).
Proof. intros H. unfold processServerMessage. now rewrite H. Qed.

Lemma processServerMessage_error (msg : ServerMessage) (w : World) :
  sm_Type msg = MtError ->
  processServerMessage c msg w
  = Some (Some ("server error: " ++ sm_Error msg)%string, w).
Proof. intros H. unfold processServerMessage. now rewrite H. Qed.

Lemma processServerMessage_default (msg : ServerMessage) (w : World) :
  ~ In (sm_Type msg) [MtHello; MtChallenge; MtHeartbeat; MtConnection; MtError] ->
  processServerMessage c msg w
  = Some (Some ("received unexpected message type: " ++ sm_Type msg)%string, w).
Proof.
  intros H. unfold processServerMessage.
  repeat match goal with
  | |- context [(sm_Type msg =? ?t)%string] =>
      destruct (String.eqb_spec (sm_Type msg) t) as [E|_];
      [exfalso; apply H; rewrite E; simpl; tauto|]
  end.
  reflexivity.
Qed.

(** Processing a message always returns, and changes no socket. *)
Lemma processServerMessage_returns (msg : ServerMessage) (w : World) :
  exists e w', processServerMessage c msg w = Some (e, w')
               /\ socks w' = socks w.
Proof.
  unfold processServerMessage.
  repeat match goal with
  | |- context [if ?b then _ else _] => destruct b
  end; eexists _, _; (split; [reflexivity|reflexivity]).
Qed.

(** One turn of the loop on a message that arrived. *)
Lemma Listen_step (fuel : nat) (w : World) (s : Socket) (msg : ServerMessage)
    (rest : list RecvEvent) :
  nth_error (socks w) (conn (cc c)) = Some s ->
  sock_rx s = Arrives msg :: rest ->
  Listen (S fuel) c w
  = match processServerMessage c msg (on_sock (conn (cc c)) (rx_next rest) w) with
    | Some (Some err, w') => Some (Some err, w')
    | Some (None, w') => Listen fuel c w'
    | None => None
    end.
Proof.
  intros Hs Hrx. cbn [Listen].
  rewrite (bind_Some _ _ _ _ _ (Recv_arrives (cc c) Background w s msg rest Hs Hrx)).
  unfold bind.
  destruct (processServerMessage c msg _) as [[[err|] w']|]; reflexivity.
Qed.

(** Where the error of a returning loop comes from. *)
Lemma Listen_returns_error (fuel : nat) : forall (w w' : World) (e : error),
  Listen fuel c w = Some (e, w') ->
  exists err,
    e = Some err
    /\ ((exists cause, err = ("failed to receive server message: " ++ cause)%string)
        \/ (exists msg w1 w2, processServerMessage c msg w1 = Some (Some err, w2))).
Proof.
  induction fuel as [|fuel IH]; intros w w' e H; [discriminate|].
  cbn [Listen] in H. unbind H as r w1 Hrecv.
  destruct r as [msg|cause].
  - unbind H as e1 w2 Hproc. destruct e1 as [err|].
    + ret_inv H. exists err. split; [reflexivity|]. right. now exists msg, w1, w2.
    + exact (IH _ _ _ H).
  - ret_inv H. eexists. split; [reflexivity|]. left. now exists cause.
Qed.

(** More fuel does not change what the loop returns. *)
Lemma Listen_fuel_mono (fuel : nat) : forall (extra : nat) (w w' : World) (e : error),
  Listen fuel c w = Some (e, w') ->
  Listen (fuel + extra) c w = Some (e, w').
Proof.
  induction fuel as [|fuel IH]; intros extra w w' e H; [discriminate|].
  cbn [Listen Nat.add] in *. unbind H as r w1 Hrecv.
  rewrite (bind_Some _ _ _ _ _ Hrecv).
  destruct r as [msg|cause]; [|exact H].
  unbind H as e1 w2 Hproc. rewrite (bind_Some _ _ _ _ _ Hproc).
  destruct e1 as [err|]; [exact H|]. now apply IH.
Qed.

(** The loop does end: after any number of messages that it tolerates,
    a failing receive makes it return. *)
Lemma Listen_returns_on_failure (msgs : list ServerMessage) :
  forall (w : World) (s : Socket) (cause : string) (rest : list RecvEvent),
  nth_error (socks w) (conn (cc c)) = Some s ->
  sock_rx s = map Arrives msgs ++ RecvFails cause :: rest ->
  Forall (fun m => In (sm_Type m) [MtHello; MtChallenge; MtHeartbeat; MtConnection])
         msgs ->
  exists w',
    Listen (S (length msgs)) c w
    = Some (Some ("failed to receive server message: " ++ cause)%string, w').
Proof.
  induction msgs as [|m msgs IH]; intros w s cause rest Hs Hrx Htol.
  - cbn [Listen length].
    rewrite (bind_Some _ _ _ _ _ (Recv_fails (cc c) Background w s cause rest Hs Hrx)).
    unfold ret. eauto.
  - inversion Htol as [|? ? Hm Htol']; subst.
    cbn [length].
    rewrite (Listen_step _ w s m (map Arrives msgs ++ RecvFails cause :: rest) Hs Hrx).
    pose proof (lookup_on_sock _ (rx_next (map Arrives msgs ++ RecvFails cause :: rest))
                  _ _ Hs) as Hs1.
    destruct (processServerMessage_returns m
                (on_sock (conn (cc c))
                   (rx_next (map Arrives msgs ++ RecvFails cause :: rest)) w))
      as (e & w1 & Hproc & Hsocks).
    assert (He : e = None).
    { unfold processServerMessage in Hproc. simpl in Hm.
      destruct Hm as [E|[E|[E|[E|[]]]]]; rewrite <- E in Hproc;
        now injection Hproc as <- _. }
    subst e. rewrite Hproc. rewrite <- Hsocks in Hs1.
    exact (IH w1 _ cause rest Hs1 eq_refl Htol').
Qed.

End Dispatch.

(** C3: what the control loop does with a received message.  A
    [Heartbeat] is a no-op and a stray [Hello] or [Challenge] is only
    logged: the loop goes on with its next turn (as it does after starting
    the handler of a [Connection]).  An [Error(text)] ends the loop with
    the error [server error: text], and a tag that is none of [Hello],
    [Challenge], [Heartbeat], [Connection], [Error] ends it with [received
    unexpected message type: tag]. *)
Theorem C3_control_loop_dispatch
    (c : Client) (w : World) (s : Socket) (msg : ServerMessage)
    (rest : list RecvEvent) (fuel : nat) :
  nth_error (socks w) (conn (cc c)) = Some s ->
  sock_rx s = Arrives msg :: rest ->
  (sm_Type msg = MtHeartbeat ->
     Listen (S fuel) c w
     = Listen fuel c (on_sock (conn (cc c)) (rx_next rest) w))
  /\ (sm_Type msg = MtHello ->
     Listen (S fuel) c w
     = Listen fuel c (add_log "Received an unexpected hello message"
                        (on_sock (conn (cc c)) (rx_next rest) w)))
  /\ (sm_Type msg = MtChallenge ->
     Listen (S fuel) c w
     = Listen fuel c (add_log "Received an unexpected challenge message"
                        (on_sock (conn (cc c)) (rx_next rest) w)))
  /\ (sm_Type msg = MtConnection ->
     Listen (S fuel) c w
     = Listen fuel c (add_goroutine (sm_Connection msg)
                        (on_sock (conn (cc c)) (rx_next rest) w)))
  /\ (sm_Type msg = MtError ->
     Listen (S fuel) c w
     = Some (Some ("server error: " ++ sm_Error msg)%string,
             on_sock (conn (cc c)) (rx_next rest) w))
  /\ (~ In (sm_Type msg) [MtHello; MtChallenge; MtHeartbeat; MtConnection; MtError] ->
     Listen (S fuel) c w
     = Some (Some ("received unexpected message type: " ++ sm_Type msg)%string,
             on_sock (conn (cc c)) (rx_next rest) w)).
Proof.
  intros Hs Hrx. rewrite (Listen_step c fuel w s msg rest Hs Hrx).
  split; [|split; [|split; [|split; [|split]]]]; intros H.
  - now rewrite (processServerMessage_heartbeat c msg H).
  - now rewrite (processServerMessage_hello c msg _ H).
  - now rewrite (processServerMessage_challenge c msg _ H).
  - now rewrite (processServerMessage_connection c msg _ H).
  - now rewrite (processServerMessage_error c msg _ H).
  - now rewrite (processServerMessage_default c msg _ H).
Qed.

(** C10: [Listen] never returns [nil].  Whenever the loop returns, it
    returns an error: a receive failure wrapped as [failed to receive
    server message: ...], or the error that processing a message gave.  And
    it does return when a receive fails with [cause], as on a connection
    the server closed, after any number of messages that the loop
    tolerates: with that wrapped error. *)
Theorem C10_Listen_never_returns_nil (c : Client) :
  (forall (fuel : nat) (w w' : World) (e : error),
     Listen fuel c w = Some (e, w') ->
     exists err,
       e = Some err
       /\ ((exists cause, err = ("failed to receive server message: " ++ cause)%string)
           \/ (exists msg w1 w2,
                 processServerMessage c msg w1 = Some (Some err, w2))))
  /\ (forall (msgs : list ServerMessage) (w : World) (s : Socket)
             (cause : string) (rest : list RecvEvent),
        nth_error (socks w) (conn (cc c)) = Some s ->
        sock_rx s = map Arrives msgs ++ RecvFails cause :: rest ->
        Forall (fun m => In (sm_Type m)
                           [MtHello; MtChallenge; MtHeartbeat; MtConnection]) msgs ->
        exists w',
          Listen (S (length msgs)) c w
          = Some (Some ("failed to receive server message: " ++ cause)%string, w')).
Proof.
  split.
  - intros fuel. apply Listen_returns_error.
  - apply Listen_returns_on_failure.
Qed.
(* ================================================================== *)
(** * Tunnel connection handler *)
(* ================================================================== *)

Section Handler.

Lemma grown_refl (w : World) : grown w w [].
Proof. unfold grown. rewrite app_nil_r. repeat split. now exists 0%nat. Qed.

Lemma grown_touches_first (w w1 w2 : World) (x : Socket) (tail : list Socket) :
  grown w w1 (x :: tail) ->
  touches (length (socks w)) w1 w2 ->
  exists x', grown w w2 (x' :: tail).
Proof.
  intros (Hs & Hl & Hg & Hc) (f & -> & _). exists (f x). unfold grown.
  rewrite socks_on_sock, Hs, update_nth_app_last. auto.
Qed.

Lemma grown_close_first (w w1 : World) (x : Socket) (tail : list Socket) :
  grown w w1 (x :: tail) ->
  grown w (on_sock (length (socks w)) closed w1) (closed x :: tail).
Proof.
  intros (Hs & Hl & Hg & Hc). unfold grown.
  rewrite socks_on_sock, Hs, update_nth_app_last. auto.
Qed.

Lemma grown_close_second (w w1 : World) (x y : Socket) :
  grown w w1 [x; y] ->
  grown w (on_sock (S (length (socks w))) closed w1) [x; closed y].
Proof.
  intros (Hs & Hl & Hg & Hc). unfold grown. rewrite socks_on_sock, Hs.
  replace (S (length (socks w))) with (length (socks w ++ [x]))
    by (rewrite length_app; simpl; lia).
  change (socks w ++ [x; y]) with (socks w ++ [x] ++ [y]).
  rewrite app_assoc, update_nth_app_last, <- app_assoc. auto.
Qed.

(** A connection attempt either fails and opens nothing, or appends one
    open socket and returns its descriptor. *)
Lemma establishConnectionWithTimeout_effect (host : string) (port : N)
    (w0 w w' : World) (new : list Socket) (r : net_conn + string) :
  grown w0 w new ->
  establishConnectionWithTimeout host port w = Some (r, w') ->
  copies w' = copies w
  /\ ((exists err, r = inr err /\ grown w0 w' new)
      \/ (exists sk, r = inl (length (socks w0) + length new)%nat
                     /\ grown w0 w' (new ++ [sk]))).
Proof.
  intros (Hs & Hl & Hg & Hc) H.
  unfold establishConnectionWithTimeout, bind, DialTimeout in H.
  destruct (dials w) as [|[rx txf|e] more]; unfold ret in H;
    injection H as <- <-; (split; [reflexivity|]).
  - left. eexists. split; [reflexivity|]. now unfold grown.
  - right. eexists. split.
    + now rewrite Hs, length_app.
    + unfold grown. simpl. now rewrite Hs, <- app_assoc.
  - left. eexists. split; [reflexivity|]. unfold grown. simpl.
    now rewrite app_nil_r.
Qed.

Lemma touches_copies (c : net_conn) (w w' : World) :
  touches c w w' -> copies w' = copies w.
Proof. now intros (f & -> & _). Qed.

Lemma eg_Wait_effect (w0 w w' : World) (new : list Socket) (e : error) :
  grown w0 w new -> eg_Wait w = Some (e, w') -> grown w0 w' new.
Proof.
  intros (Hs & Hl & Hg & n & Hc) H. unfold eg_Wait in H.
  destruct (copies w) as [|[down up first|] more] eqn:E; [| |discriminate];
    injection H as <- <-.
  - unfold grown. rewrite E. eauto 6.
  - unfold grown. simpl. repeat (split; [assumption|]).
    exists (1 + n)%nat. rewrite E, <- skipn_skipn, <- Hc. reflexivity.
Qed.

Variable c : Client.
Variable id : UUID.

Lemma handler_handshake_touches (rc : Codec) (w w' : World) (r : N * error) :
  handler_handshake c rc w = Some (r, w') -> touches (conn rc) w w'.
Proof.
  unfold handler_handshake. destruct (auth c) as [a|].
  - apply PerformClientHandshake_touches.
  - intros H. ret_inv H. apply touches_refl.
Qed.

(** The handler's own sockets are all closed when it returns, on every
    path, and it leaves the sockets that existed before as they were. *)
Lemma establishConnectionRoutine_effect (w w' : World) (e : error) :
  establishConnectionRoutine c id w = Some (e, w') ->
  exists new,
    grown w w' new
    /\ (length new <= 2)%nat
    /\ Forall (fun s => sock_open s = false) new.
Proof.
  unfold establishConnectionRoutine. intros H.
  unbind H as r w0 Hdial.
  destruct (establishConnectionWithTimeout_effect _ _ w w w0 [] _ (grown_refl w) Hdial)
    as [_ [(err & -> & G)|(sk & -> & G)]].
  { ret_inv H. exists []. split; [exact G|]. split; [simpl; lia|constructor]. }
  rewrite Nat.add_0_r in H. simpl app in G.
  unfold defer at 1 in H. unbind H as e1 w1 Hbody. unbind H as u wc Hclose.
  unfold Close in Hclose. injection Hclose as _ <-. ret_inv H.
  (* the body, between the two deferred calls *)
  assert (B : exists x tail, grown w w1 (x :: tail)
                /\ (length tail <= 1)%nat
                /\ Forall (fun s => sock_open s = false) tail).
  { clear Hdial. rename Hbody into H.
    unbind H as hs w2 Hhs.
    apply handler_handshake_touches in Hhs.
    destruct (grown_touches_first _ _ _ _ _ G Hhs) as (x1 & G1).
    destruct (snd hs) as [err|].
    { ret_inv H. exists x1, []. split; [exact G1|]. split; [simpl; lia|constructor]. }
    unbind H as e2 w3 Hsend. apply Send_touches in Hsend.
    destruct (grown_touches_first _ _ _ _ _ G1 Hsend) as (x2 & G2).
    destruct e2 as [err|].
    { ret_inv H. exists x2, []. split; [exact G2|]. split; [simpl; lia|constructor]. }
    unbind H as l w4 Hlocal.
    destruct (establishConnectionWithTimeout_effect _ _ w _ _ _ _ G2 Hlocal)
      as [_ [(err & -> & G3)|(lk & -> & G3)]].
    { ret_inv H. exists x2, []. split; [exact G3|]. split; [simpl; lia|constructor]. }
    unfold defer in H. unbind H as e3 w5 Hrelay. unbind H as u' wl Hclose.
    unfold Close in Hclose. injection Hclose as _ <-. ret_inv H.
    assert (G4 : grown w w5 [x2; lk]).
    { unbind Hrelay as e4 w6 Hwait. apply (eg_Wait_effect w _ _ _ _ G3) in Hwait.
      destruct e4; ret_inv Hrelay; exact Hwait. }
    exists x2, [closed lk]. split.
    - cbn [length]. rewrite Nat.add_1_r.
      exact (grown_close_second w w5 x2 lk G4).
    - split; [simpl; lia|]. now repeat constructor. }
  destruct B as (x & tail & G' & Hlen & Hcl).
  exists (closed x :: tail). split; [|split].
  - now apply grown_close_first.
  - simpl. lia.
  - constructor; [reflexivity|exact Hcl].
Qed.

(** The handler returns unless the relay itself never ends. *)
Lemma establishConnectionRoutine_returns (w : World) :
  hd (CopyEnds None None true) (copies w) <> CopyHangs ->
  exists e w', establishConnectionRoutine c id w = Some (e, w').
Proof.
  intros Hc. unfold establishConnectionRoutine.
  destruct (establishConnectionWithTimeout (da c) (sp c) w) as [[r w0]|] eqn:E0.
  2:{ unfold establishConnectionWithTimeout, bind, DialTimeout in E0.
      destruct (dials w) as [|[? ?|?] ?]; discriminate. }
  rewrite (bind_Some _ _ _ _ _ E0).
  destruct (establishConnectionWithTimeout_effect _ _ w w w0 [] _ (grown_refl w) E0)
    as [Hc0 [(err & -> & G)|(sk & -> & G)]]; [unfold ret; eauto|].
  cbn [length]. rewrite Nat.add_0_r.
  unfold defer at 1, Close.
  match goal with
  | |- exists e w', bind ?body _ _ = _ =>
      assert (B : exists e w1, body w0 = Some (e, w1))
  end.
  2:{ destruct B as (e & w1 & B). rewrite (bind_Some _ _ _ _ _ B).
      unfold bind, ret. eauto. }
  destruct (handler_handshake c (NewCodec (length (socks w))) w0)
    as [[hs w1]|] eqn:E1.
  2:{ unfold handler_handshake in E1. destruct (auth c) as [a|]; [|discriminate].
      destruct (PerformClientHandshake_returns a
                  (NewCodec (length (socks w))) (cid c) w0) as (? & ? & E).
      congruence. }
  rewrite (bind_Some _ _ _ _ _ E1).
  pose proof (touches_copies _ _ _ (handler_handshake_touches _ _ _ _ E1)) as Hc1.
  destruct (snd hs) as [err|]; [unfold ret; eauto|].
  match goal with
  | |- context [Send ?rc ?m] =>
      destruct (Send_returns rc m w1) as (e2 & w2 & E2)
  end.
  rewrite (bind_Some _ _ _ _ _ E2).
  pose proof (touches_copies _ _ _ (Send_touches _ _ _ _ _ E2)) as Hc2.
  destruct e2 as [err|]; [unfold ret; eauto|].
  destruct (establishConnectionWithTimeout (lh c) (lp c) w2) as [[l w3]|] eqn:E3.
  2:{ unfold establishConnectionWithTimeout, bind, DialTimeout in E3.
      destruct (dials w2) as [|[? ?|?] ?]; discriminate. }
  rewrite (bind_Some _ _ _ _ _ E3).
  destruct (establishConnectionWithTimeout_effect _ _ w2 w2 w3 [] _ (grown_refl w2) E3)
    as [Hc3 _].
  destruct l as [lconn|err]; [|unfold ret; eauto].
  assert (Hcw : copies w3 = copies w) by congruence.
  unfold defer, Close, bind, eg_Wait. rewrite Hcw.
  destruct (copies w) as [|[down up first|] more].
  - unfold ret. eauto.
  - destruct first, down, up; unfold ret; eauto.
  - now contradiction Hc.
Qed.

End Handler.
(** C8: on every path on which [establishConnectionRoutine] returns --
    the connection to the server refused, the handshake failed, the
    [Accept] message not sent, the local service not reached, a copy failed
    in either direction, or success -- it has opened at most two sockets
    and each of them is closed; the sockets that existed before are as they
    were.  It does return unless the relay never ends. *)
Theorem C8_handler_closes_its_sockets (c : Client) (id : UUID) (w : World) :
  (forall (e : error) (w' : World),
     establishConnectionRoutine c id w = Some (e, w') ->
     exists new,
       socks w' = socks w ++ new
       /\ (length new <= 2)%nat
       /\ Forall (fun s => sock_open s = false) new)
  /\ (hd (CopyEnds None None true) (copies w) <> CopyHangs ->
      exists e w', establishConnectionRoutine c id w = Some (e, w')).
Proof.
  split.
  - intros e w' H.
    destruct (establishConnectionRoutine_effect c id w w' e H)
      as (new & (Hs & _) & Hlen & Hcl).
    now exists new.
  - apply establishConnectionRoutine_returns.
Qed.

(* ================================================================== *)
(** * Isolation of the handlers *)
(* ================================================================== *)

Section Isolation.

Variable c : Client.







End Isolation.

(* ================================================================== *)
(** * The scenarios *)
(* ================================================================== *)

Import Scenario.

Example NewClient_scenario :
  match NewClient 8901 "127.0.0.1" 9090 "relay" "TEST" secret
          (server [Arrives (Challenge X); Arrives (FreePort 5000);
                   Arrives (Hello 9090)]) with
  | Some ((Some c, None), w') =>
      RemotePort c = 9090%N
      /\ map (fun s => map (fun m => (cm_Type m, cm_Port m)) (sock_tx s)) (socks w')
         = [[(MtAuthenticate, 0%N); (MtHello, 5000%N)]]
      /\ logs w' = ["Connected to server at relay:9090";
                    ("Listening for connection to redirect" ++ nl)%string]
  | _ => False
  end.
Proof. vm_compute. repeat split. Qed.

Example Listen_scenario_error :
  option_map fst
    (Listen 10 client
       (established [Arrives Heartbeat; Arrives (Hello 1);
                     Arrives (Error "bad client")] [] []))
  = Some (Some "server error: bad client").
Proof. vm_compute. reflexivity. Qed.

(** Without a fatal message the loop is still waiting. *)
Example Listen_scenario_waiting :
  Listen 10 client (established [Arrives Heartbeat; Arrives Heartbeat] [] []) = None.
Proof. vm_compute. reflexivity. Qed.

(** The exit paths of the handler, one by one. *)
Example handler_server_unreachable :
  handler_outcome (established [] [DialFails "connection refused"] [])
  = Some (Some "failed to connect to relay: could not connect to relay:8901: connection refused",
          [true]).
Proof. vm_compute. reflexivity. Qed.

Example handler_handshake_fails :
  handler_outcome (established [] [Connects [Arrives (Error "no")] []] [])
  = Some (Some "client handshake failed: no secret provided / invalid secret key",
          [true; false]).
Proof. vm_compute. reflexivity. Qed.

Example handler_accept_not_sent :
  handler_outcome (established [] [tunnel [None; Some "broken pipe"]] [])
  = Some (Some "failed to send accept message: broken pipe", [true; false]).
Proof. vm_compute. reflexivity. Qed.

Example handler_local_unreachable :
  handler_outcome (established [] [tunnel []; DialFails "connection refused"] [])
  = Some (Some "failed to connect to local host 127.0.0.1:9090: could not connect to 127.0.0.1:9090: connection refused",
          [true; false]).
Proof. vm_compute. reflexivity. Qed.

Example handler_copy_down_fails :
  handler_outcome (established [] [tunnel []; local_service]
                     [CopyEnds (Some "reset by peer") None false])
  = Some (Some "data transfer failed: reset by peer", [true; false; false]).
Proof. vm_compute. reflexivity. Qed.

Example handler_copy_up_fails_first :
  handler_outcome (established [] [tunnel []; local_service]
                     [CopyEnds (Some "reset by peer") (Some "broken pipe") false])
  = Some (Some "data transfer failed: broken pipe", [true; false; false]).
Proof. vm_compute. reflexivity. Qed.

Example handler_succeeds :
  handler_outcome (established [] [tunnel []; local_service]
                     [CopyEnds None None true])
  = Some (None, [true; false; false]).
Proof. vm_compute. reflexivity. Qed.

Example handler_relay_hangs :
  handler_outcome (established [] [tunnel []; local_service] [CopyHangs]) = None.
Proof. vm_compute. reflexivity. Qed.
(* ================================================================== *)
(** * The claims at the scenarios *)
(* ================================================================== *)

(** C2 at the scripted exchange [Challenge(X)], [FreePort(5000)],
    [Hello(9090)], and at the exchange that ends in a second challenge. *)
Lemma C2_scripted_establishment_witness :
  (exists r w' s',
     NewClient 8901 "127.0.0.1" 9090 "relay" "TEST" secret
       (server [Arrives (Challenge X); Arrives (FreePort 5000);
                Arrives (Hello 9090)]) = Some (r, w')
     /\ nth_error (socks w') 0 = Some s'
     /\ sock_tx s' =
          [mkClientMessage MtAuthenticate
             (hex.EncodeToString
                (hmac.Sum (sha256.Sum256 (list_byte_of_string secret)) X))
             0%N uuid_Nil "TEST";
           mkClientMessage MtHello "" 5000%N uuid_Nil ""]
     /\ exists c, r = (Some c, None) /\ RemotePort c = 9090%N)
  /\ (exists w',
        NewClient 8901 "127.0.0.1" 9090 "relay" "TEST" secret
          (server [Arrives (Challenge X); Arrives (FreePort 5000);
                   Arrives (Challenge Y)])
        = Some ((None, Some "server requires authentication, but no client secret was provided"), w')).
Proof.
  split.
  - destruct (C2_scripted_establishment 8901 9090 "127.0.0.1" "relay" "TEST" secret
                (server [Arrives (Challenge X); Arrives (FreePort 5000);
                         Arrives (Hello 9090)])
                (Challenge X) (FreePort 5000) (Hello 9090) [] [] []
                eq_refl eq_refl eq_refl eq_refl eq_refl)
      as (r & w' & s' & Hrun & Hs & Htx & Hhello & _).
    exists r, w', s'. repeat (split; [assumption|]). exact (Hhello eq_refl).
  - destruct (C2_scripted_establishment 8901 9090 "127.0.0.1" "relay" "TEST" secret
                (server [Arrives (Challenge X); Arrives (FreePort 5000);
                         Arrives (Challenge Y)])
                (Challenge X) (FreePort 5000) (Challenge Y) [] [] []
                eq_refl eq_refl eq_refl eq_refl eq_refl)
      as (r & w' & s' & Hrun & _ & _ & _ & Hch).
    exists w'. rewrite (Hch eq_refl) in Hrun. exact Hrun.
Defined.

(** C3 at [Error("bad client")], and at the tag [FreePort], which the
    loop does not expect. *)
Lemma C3_control_loop_dispatch_witness :
  Listen 1 client (established [Arrives (Error "bad client")] [] [])
  = Some (Some "server error: bad client", established [] [] [])
  /\ Listen 1 client (established [Arrives (FreePort 1)] [] [])
     = Some (Some "received unexpected message type: FreePort", established [] [] [])
  /\ Listen 3 client (established [Arrives Heartbeat; Arrives (Hello 1)] [] [])
     = Listen 2 client (established [Arrives (Hello 1)] [] []).
Proof.
  split; [|split].
  - destruct (C3_control_loop_dispatch client
                (established [Arrives (Error "bad client")] [] [])
                (mkSocket "relay:8901" true [Arrives (Error "bad client")] [] [])
                (Error "bad client") [] 0 eq_refl eq_refl)
      as (_ & _ & _ & _ & Herror & _).
    exact (Herror eq_refl).
  - destruct (C3_control_loop_dispatch client
                (established [Arrives (FreePort 1)] [] [])
                (mkSocket "relay:8901" true [Arrives (FreePort 1)] [] [])
                (FreePort 1) [] 0 eq_refl eq_refl)
      as (_ & _ & _ & _ & _ & Hother).
    apply Hother. simpl.
    intros [H|[H|[H|[H|[H|[]]]]]]; discriminate H.
  - destruct (C3_control_loop_dispatch client
                (established [Arrives Heartbeat; Arrives (Hello 1)] [] [])
                (mkSocket "relay:8901" true [Arrives Heartbeat; Arrives (Hello 1)] [] [])
                Heartbeat [Arrives (Hello 1)] 2 eq_refl eq_refl)
      as (Hheartbeat & _).
    exact (Hheartbeat eq_refl).
Defined.


(** C5 at a server that opens with [Hello]. *)
Lemma C5_first_message_must_be_challenge_witness :
  exists w',
    PerformClientHandshake (NewAuthenticator secret) (mkCodec 0) "TEST"
      (established [Arrives (Hello 1)] [] [])
    = Some ((0%N, Some "no secret provided / invalid secret key"), w')
    /\ map sock_tx (socks w') = [[]]
    /\ w' = on_sock 0 (rx_next []) (established [Arrives (Hello 1)] [] []).
Proof.
  apply (C5_first_message_must_be_challenge (NewAuthenticator secret) (mkCodec 0)
           "TEST" (established [Arrives (Hello 1)] [] [])
           (mkSocket "relay:8901" true [Arrives (Hello 1)] [] [])
           (Hello 1) [] eq_refl eq_refl).
  discriminate.
Defined.

(** C6 at a grant of port 5000, and at an [Error] after the answer. *)
Lemma C6_second_message_decides_witness :
  (exists w',
     PerformClientHandshake (NewAuthenticator secret) (mkCodec 0) "TEST"
       (established [Arrives (Challenge X); Arrives (FreePort 5000)] [] [])
     = Some ((5000%N, None), w'))
  /\ (exists w',
        PerformClientHandshake (NewAuthenticator secret) (mkCodec 0) "TEST"
          (established [Arrives (Challenge X); Arrives (Error "unknown client")] [] [])
        = Some ((0%N, Some "rejection response from server"), w')).
Proof.
  split.
  - destruct (C6_second_message_decides (NewAuthenticator secret) (mkCodec 0) "TEST"
                (established [Arrives (Challenge X); Arrives (FreePort 5000)] [] [])
                _ (Challenge X) (FreePort 5000) [] eq_refl eq_refl eq_refl eq_refl)
      as (r & w' & s' & Hrun & _ & Hgrant & _).
    exists w'. rewrite (Hgrant eq_refl) in Hrun. exact Hrun.
  - destruct (C6_second_message_decides (NewAuthenticator secret) (mkCodec 0) "TEST"
                (established [Arrives (Challenge X); Arrives (Error "unknown client")] [] [])
                _ (Challenge X) (Error "unknown client") [] eq_refl eq_refl eq_refl eq_refl)
      as (r & w' & s' & Hrun & Hreject & _).
    exists w'. rewrite Hreject in Hrun; [exact Hrun|discriminate].
Defined.

(** C8 at a handler whose relay fails in both directions. *)
Lemma C8_handler_closes_its_sockets_witness :
  exists e w' new,
    establishConnectionRoutine client X
      (established [] [tunnel []; local_service]
         [CopyEnds (Some "reset by peer") (Some "broken pipe") false])
    = Some (e, w')
    /\ socks w' = [mkSocket "relay:8901" true [] [] []] ++ new
    /\ (length new <= 2)%nat
    /\ Forall (fun s => sock_open s = false) new.
Proof.
  destruct (C8_handler_closes_its_sockets client X
              (established [] [tunnel []; local_service]
                 [CopyEnds (Some "reset by peer") (Some "broken pipe") false]))
    as [Hclosed Hreturns].
  destruct Hreturns as (e & w' & E); [discriminate|].
  destruct (Hclosed e w' E) as (new & H).
  exists e, w', new. split; [exact E|exact H].
Defined.

(** C10 at a control connection that the server closes after a heartbeat
    and a connection notice. *)
Lemma C10_Listen_never_returns_nil_witness :
  (exists err w',
     Listen 5 client
       (established [Arrives Heartbeat; Arrives (Error "bad client")] [] [])
     = Some (Some err, w'))
  /\ (exists w',
        Listen 3 client
          (established [Arrives Heartbeat; Arrives (Connection X); RecvFails "EOF"]
             [] [])
        = Some (Some "failed to receive server message: EOF", w')).
Proof.
  destruct (C10_Listen_never_returns_nil client) as [Hnil Hfail].
  split.
  - destruct (Listen 5 client
                (established [Arrives Heartbeat; Arrives (Error "bad client")] [] []))
      as [[e w']|] eqn:E.
    + destruct (Hnil _ _ _ _ E) as (err & -> & _). now exists err, w'.
    + exfalso. vm_compute in E. discriminate E.
  - apply (Hfail [Heartbeat; Connection X]
             (established [Arrives Heartbeat; Arrives (Connection X); RecvFails "EOF"]
                [] [])
             (mkSocket "relay:8901" true
                [Arrives Heartbeat; Arrives (Connection X); RecvFails "EOF"] [] [])
             "EOF" [] eq_refl eq_refl).
    repeat constructor; simpl; tauto.
Defined.

(* ================================================================== *)
(** * More on the answers *)
(* ================================================================== *)

Section AnswerFormat.

Lemma string_of_list_byte_length (l : list byte) :
  String.length (string_of_list_byte l) = length l.
Proof.
  unfold string_of_list_byte.
  induction l as [|b l IH]; simpl; [reflexivity|now rewrite IH].
Qed.

Lemma Encode_length (b : list byte) : length (hex.Encode b) = (2 * length b)%nat.
Proof. induction b as [|v b IH]; simpl; [reflexivity|rewrite IH; lia]. Qed.

Lemma Encode_lower_hex (b : list byte) :
  forallb is_lower_hex_digit (hex.Encode b) = true.
Proof.
  induction b as [|v b IH]; [reflexivity|].
  change (hex.Encode (v :: b)) with (hex.Encode [v] ++ hex.Encode b).
  rewrite forallb_app, IH, andb_true_r. now destruct v.
Qed.

Lemma reverseHexTable_upper (c : byte) :
  hex.reverseHexTable (upper_byte c) = hex.reverseHexTable c.
Proof. now destruct c. Qed.

Lemma Decode_upper_aux (n : nat) : forall src : list byte,
  (length src <= n)%nat ->
  hex.Decode (map upper_byte src)
  = (fst (hex.Decode src), option_map upper_error (snd (hex.Decode src))).
Proof.
  induction n as [|n IH]; intros src Hlen.
  - destruct src; [reflexivity|simpl in Hlen; lia].
  - destruct src as [|p [|q rest]]; [reflexivity| |].
    + cbn [map hex.Decode]. rewrite reverseHexTable_upper.
      now destruct (hex.reverseHexTable p >? 15).
    + assert (Hr : (length rest <= n)%nat) by (simpl in Hlen; lia).
      cbn [map hex.Decode]. rewrite !reverseHexTable_upper, (IH rest Hr).
      destruct (hex.reverseHexTable p >? 15); [reflexivity|].
      destruct (hex.reverseHexTable q >? 15); [reflexivity|].
      now destruct (hex.Decode rest).
Qed.

Lemma DecodeString_ToUpper (s : string) :
  hex.DecodeString (ToUpper s)
  = (fst (hex.DecodeString s), option_map upper_error (snd (hex.DecodeString s))).
Proof.
  unfold hex.DecodeString, ToUpper. rewrite list_byte_of_string_of_list_byte.
  now apply (Decode_upper_aux (length (list_byte_of_string s))).
Qed.

End AnswerFormat.

(** X1: [ValidateAnswer] accepts an answer exactly when the answer
    decodes from hex, without error, to the HMAC-SHA256 of the challenge
    under the key: the constant-time comparison is an equality test. *)
Theorem X1_ValidateAnswer_exact (a : Authenticator) (ch : UUID) (ans : string) :
  ValidateAnswer a ch ans = true
  <-> hex.DecodeString ans = (hmac.Sum (k a) ch, None).
Proof.
  unfold ValidateAnswer.
  destruct (hex.DecodeString ans) as [b [e|]].
  - split; discriminate.
  - rewrite Equal_true_iff. split; [now intros ->|congruence].
Qed.

(** X2: the key that [NewAuthenticator] derives has 32 bytes, whatever the
    secret, and every answer that [GenerateAnswer] returns is a string of
    64 characters, each one of [0123456789abcdef]. *)
Theorem X2_key_and_answer_format (secret : string) (a : Authenticator) (ch : UUID) :
  length (k (NewAuthenticator secret)) = 32%nat
  /\ String.length (GenerateAnswer a ch) = 64%nat
  /\ forallb is_lower_hex_digit (list_byte_of_string (GenerateAnswer a ch)) = true.
Proof.
  split; [reflexivity|]. unfold GenerateAnswer, hex.EncodeToString. split.
  - now rewrite string_of_list_byte_length, Encode_length, hmac_Sum_length.
  - rewrite list_byte_of_string_of_list_byte. apply Encode_lower_hex.
Qed.

(** X3: [ValidateAnswer] does not look at the case of the hex digits: an
    answer and its upper-case spelling get the same verdict, so the
    upper-case spelling of a generated answer is accepted. *)
Theorem X3_ValidateAnswer_ignores_case (a : Authenticator) (ch : UUID) (ans : string) :
  ValidateAnswer a ch (ToUpper ans) = ValidateAnswer a ch ans
  /\ ValidateAnswer a ch (ToUpper (GenerateAnswer a ch)) = true.
Proof.
  assert (H : forall s, ValidateAnswer a ch (ToUpper s) = ValidateAnswer a ch s).
  { intros s. unfold ValidateAnswer. rewrite DecodeString_ToUpper.
    now destruct (hex.DecodeString s) as [b [e|]]. }
  split; [apply H|]. rewrite H. apply ValidateAnswer_GenerateAnswer.
Qed.

Example ToUpper_answer :
  ToUpper "c0ffee" = "C0FFEE".
Proof. reflexivity. Qed.
(* ================================================================== *)
(** * More on the handshake *)
(* ================================================================== *)

Section HandshakeCases.

Variable a : Authenticator.
Variable stream : Codec.
Variable clientId : string.

Lemma Recv_at (ctx : Context_) (w : World) (s : Socket) :
  nth_error (socks w) (conn stream) = Some s ->
  Recv stream ctx w
  = match sock_rx s with
    | Arrives m :: rest => Some (inl m, on_sock (conn stream) (rx_next rest) w)
    | RecvFails e :: rest => Some (inr e, on_sock (conn stream) (rx_next rest) w)
    | [] => match ctx with
            | WithTimeout => Some (inr "context deadline exceeded", w)
            | Background => None
            end
    end.
Proof. intros H. unfold Recv. now rewrite H. Qed.

Lemma Send_at (msg : ClientMessage) (w : World) (s : Socket) :
  nth_error (socks w) (conn stream) = Some s ->
  Send stream msg w
  = match sock_txfail s with
    | Some e :: _ => Some (Some e, on_sock (conn stream) tx_failed w)
    | _ => Some (None, on_sock (conn stream) (tx_sent msg) w)
    end.
Proof. intros H. unfold Send. now rewrite H. Qed.

Lemma on_sock_const (c : net_conn) (f : Socket -> Socket) (w : World) (s : Socket) :
  nth_error (socks w) c = Some s ->
  on_sock c f w = on_sock c (fun _ => f s) w.
Proof.
  intros H. unfold on_sock. f_equal.
  revert c H. induction (socks w) as [|x l IH]; intros [|c] H; simpl in *;
    try discriminate; [now injection H as ->|].
  now rewrite (IH c H).
Qed.

Lemma handshake_cases (w w' : World) (s : Socket) (r : N * error) :
  nth_error (socks w) (conn stream) = Some s ->
  PerformClientHandshake a stream clientId w = Some (r, w') ->
  exists s', handshake_run a clientId s r s' /\ w' = on_sock (conn stream) (fun _ => s') w.
Proof.
  intros Hs H. unfold PerformClientHandshake in H.
  unfold bind at 1 in H. rewrite (Recv_at _ _ _ Hs) in H.
  destruct (sock_rx s) as [|[m1|e1] r1] eqn:Hrx.
  - ret_inv H. exists s. split; [now apply hr_silent|].
    rewrite <- (on_sock_const _ (fun s => s) _ _ Hs). symmetry. apply on_sock_id.
  - pose proof (lookup_on_sock _ (rx_next r1) _ _ Hs) as Hs1.
    destruct (String.eqb_spec (sm_Type m1) MtChallenge) as [Ht|Ht]; cbn [negb] in H.
    2:{ ret_inv H. eexists. split; [now apply (hr_not_challenge a clientId s m1 r1)|].
        rewrite (on_sock_const _ _ _ _ Hs). reflexivity. }
    unfold bind at 1 in H. rewrite (Send_at _ _ _ Hs1) in H.
    cbn [sock_txfail rx_next] in H.
    destruct (sock_txfail s) as [|[e|] more] eqn:Htx.
    + pose proof (lookup_on_sock _
        (tx_sent (AuthenticateMsg a clientId (sm_Challenge m1))) _ _ Hs1) as Hs2.
      fold (AuthenticateMsg a clientId (sm_Challenge m1)) in H.
      unfold bind at 1 in H. rewrite (Recv_at _ _ _ Hs2) in H.
      cbn [sock_rx tx_sent rx_next] in H.
      destruct r1 as [|[m2|e2] r2].
      * ret_inv H. eexists. split.
        { apply (hr_silent_after a clientId s m1); [assumption|assumption|now rewrite Htx]. }
        rewrite on_sock_twice, (on_sock_const _ _ _ _ Hs). reflexivity.
      * assert (E : (r, w') =
                    (if (sm_Type m2 =? MtFreePort)%string
                     then (sm_Port m2, None)
                     else (0%N, Some "rejection response from server"),
                     on_sock (conn stream) (rx_next r2)
                       (on_sock (conn stream)
                          (tx_sent (AuthenticateMsg a clientId (sm_Challenge m1)))
                          (on_sock (conn stream) (rx_next (Arrives m2 :: r2)) w)))).
        { destruct (sm_Type m2 =? MtFreePort)%string; now ret_inv H. }
        injection E as -> ->. eexists. split.
        { apply (hr_answered a clientId s m1 m2 r2); [assumption|assumption|now rewrite Htx]. }
        rewrite !on_sock_twice, (on_sock_const _ _ _ _ Hs). reflexivity.
      * ret_inv H. eexists. split.
        { apply (hr_recv_fails_after a clientId s m1 e2 r2);
            [assumption|assumption|now rewrite Htx]. }
        rewrite !on_sock_twice, (on_sock_const _ _ _ _ Hs). reflexivity.
    + ret_inv H. eexists. split.
      { now apply (hr_send_fails a clientId s m1 r1 e more). }
      rewrite on_sock_twice, (on_sock_const _ _ _ _ Hs). reflexivity.
    + pose proof (lookup_on_sock _
        (tx_sent (AuthenticateMsg a clientId (sm_Challenge m1))) _ _ Hs1) as Hs2.
      fold (AuthenticateMsg a clientId (sm_Challenge m1)) in H.
      unfold bind at 1 in H. rewrite (Recv_at _ _ _ Hs2) in H.
      cbn [sock_rx tx_sent rx_next] in H.
      destruct r1 as [|[m2|e2] r2].
      * ret_inv H. eexists. split.
        { apply (hr_silent_after a clientId s m1); [assumption|assumption|now rewrite Htx]. }
        rewrite on_sock_twice, (on_sock_const _ _ _ _ Hs). reflexivity.
      * assert (E : (r, w') =
                    (if (sm_Type m2 =? MtFreePort)%string
                     then (sm_Port m2, None)
                     else (0%N, Some "rejection response from server"),
                     on_sock (conn stream) (rx_next r2)
                       (on_sock (conn stream)
                          (tx_sent (AuthenticateMsg a clientId (sm_Challenge m1)))
                          (on_sock (conn stream) (rx_next (Arrives m2 :: r2)) w)))).
        { destruct (sm_Type m2 =? MtFreePort)%string; now ret_inv H. }
        injection E as -> ->. eexists. split.
        { apply (hr_answered a clientId s m1 m2 r2); [assumption|assumption|now rewrite Htx]. }
        rewrite !on_sock_twice, (on_sock_const _ _ _ _ Hs). reflexivity.
      * ret_inv H. eexists. split.
        { apply (hr_recv_fails_after a clientId s m1 e2 r2);
            [assumption|assumption|now rewrite Htx]. }
        rewrite !on_sock_twice, (on_sock_const _ _ _ _ Hs). reflexivity.
  - ret_inv H. eexists. split; [now apply (hr_recv_fails a clientId s e1 r1)|].
    rewrite (on_sock_const _ _ _ _ Hs). reflexivity.
Qed.

End HandshakeCases.

(** X4: on an existing socket the handshake succeeds exactly when the peer
    sends a [Challenge], the [Authenticate] message goes out, and the peer
    then sends a [FreePort] message; the port returned is that message's,
    and the socket has then lost the two messages and gained the one sent.
    Whenever the handshake fails, the port it returns is 0. *)
Theorem X4_handshake_succeeds_iff
    (a : Authenticator) (stream : Codec) (clientId : string)
    (w : World) (s : Socket) :
  nth_error (socks w) (conn stream) = Some s ->
  (forall (p : N) (w' : World),
     PerformClientHandshake a stream clientId w = Some ((p, None), w')
     <-> exists m1 m2 rest,
           sock_rx s = Arrives m1 :: Arrives m2 :: rest
           /\ sm_Type m1 = MtChallenge
           /\ hd None (sock_txfail s) = None
           /\ sm_Type m2 = MtFreePort
           /\ p = sm_Port m2
           /\ w' = on_sock (conn stream)
                     (fun s => rx_next rest
                        (tx_sent (AuthenticateMsg a clientId (sm_Challenge m1)) s)) w)
  /\ (forall (p : N) (e : string) (w' : World),
        PerformClientHandshake a stream clientId w = Some ((p, Some e), w') ->
        p = 0%N).
Proof.
  intros Hs. split.
  - intros p w'. split.
    + intros H. destruct (handshake_cases a stream clientId w w' s _ Hs H)
        as (s' & Hrun & ->).
      inversion Hrun as [| | | | | |m1 m2 rest Hrx Ht Htx Hr]; subst.
      destruct (String.eqb_spec (sm_Type m2) MtFreePort) as [Ht2|]; [|discriminate].
      injection Hr as <-. exists m1, m2, rest.
      repeat (split; [assumption || reflexivity|]).
      rewrite (on_sock_const _
                 (fun s => rx_next rest
                    (tx_sent (AuthenticateMsg a clientId (sm_Challenge m1)) s))
                 _ _ Hs).
      reflexivity.
    + intros (m1 & m2 & rest & Hrx & Ht1 & Htx & Ht2 & -> & ->).
      rewrite (handshake_second_message a stream clientId w s m1 m2 rest
                 Hs Hrx Ht1 Htx).
      now rewrite Ht2.
  - intros p e w' H.
    destruct (handshake_cases a stream clientId w w' s _ Hs H) as (s' & Hrun & _).
    inversion Hrun as [| | | | | |m1 m2 rest Hrx Ht Htx Hr]; subst; try reflexivity.
    now destruct (sm_Type m2 =? MtFreePort)%string; injection Hr as <-.
Qed.

(** X5: the handshake sends at most one message, and only on its own
    channel, which it neither opens nor closes.  If it sends one, the peer
    had sent a [Challenge], and the message is [Authenticate] with the
    client id and an answer that [ValidateAnswer] accepts for that
    challenge under the same key. *)
Theorem X5_handshake_sends_one_valid_answer
    (a : Authenticator) (stream : Codec) (clientId : string)
    (w w' : World) (s : Socket) (r : N * error) :
  nth_error (socks w) (conn stream) = Some s ->
  PerformClientHandshake a stream clientId w = Some (r, w') ->
  exists s',
    w' = on_sock (conn stream) (fun _ => s') w
    /\ sock_open s' = sock_open s
    /\ (sock_tx s' = sock_tx s
        \/ exists m rest,
             sock_rx s = Arrives m :: rest
             /\ sm_Type m = MtChallenge
             /\ sock_tx s' = sock_tx s ++
                  [mkClientMessage MtAuthenticate (GenerateAnswer a (sm_Challenge m))
                     0%N uuid_Nil clientId]
             /\ ValidateAnswer a (sm_Challenge m)
                  (GenerateAnswer a (sm_Challenge m)) = true).
Proof.
  intros Hs H.
  destruct (handshake_cases a stream clientId w w' s r Hs H) as (s' & Hrun & ->).
  exists s'. split; [reflexivity|].
  inversion Hrun; subst; (split; [reflexivity|]);
    try (left; reflexivity);
    right; eexists _, _; (split; [eassumption|]); (split; [assumption|]);
    (split; [reflexivity|apply ValidateAnswer_GenerateAnswer]).
Qed.

(** X6: the handshake never waits for ever.  It returns in every world,
    and against a peer that is silent from the start, or falls silent after
    its challenge has been answered, it returns an error. *)
Theorem X6_handshake_never_blocks
    (a : Authenticator) (stream : Codec) (clientId : string) (w : World) :
  (exists r w', PerformClientHandshake a stream clientId w = Some (r, w'))
  /\ (forall (s : Socket) (r : N * error) (w' : World),
        nth_error (socks w) (conn stream) = Some s ->
        PerformClientHandshake a stream clientId w = Some (r, w') ->
        sock_rx s = [] \/ (exists m, sock_rx s = [Arrives m]) ->
        exists e, r = (0%N, Some e)).
Proof.
  split; [apply PerformClientHandshake_returns|].
  intros s r w' Hs H Hsilent.
  destruct (handshake_cases a stream clientId w w' s r Hs H) as (s' & Hrun & _).
  inversion Hrun; subst; eauto;
    destruct Hsilent as [E|(m' & E)]; congruence.
Qed.
(* ================================================================== *)
(** * More on the construction of the session *)
(* ================================================================== *)

Section InitialMessage.

Lemma processInitialServerMessage_nil (msg : ServerMessage) :
  snd (processInitialServerMessage msg) = None <-> sm_Type msg = MtHello.
Proof.
  unfold processInitialServerMessage.
  destruct (String.eqb_spec (sm_Type msg) MtHello) as [E|E]; [tauto|].
  destruct (sm_Type msg =? MtError)%string; [split; [discriminate|tauto]|].
  destruct (sm_Type msg =? MtChallenge)%string; split; (discriminate || tauto).
Qed.

End InitialMessage.

(** X7: of the server's reply to [Hello], [processInitialServerMessage]
    accepts the tag [Hello] and no other, and then returns the port of the
    message.  [Error(text)] gives [server error: text], any tag other than
    [Hello], [Error] and [Challenge] (so also [Heartbeat], [Connection] and
    [FreePort]) gives [unexpected initial non-hello message of type: tag],
    and the port returned with an error is 0. *)
Theorem X7_initial_message (msg : ServerMessage) :
  (snd (processInitialServerMessage msg) = None <-> sm_Type msg = MtHello)
  /\ (sm_Type msg = MtHello ->
      processInitialServerMessage msg = (sm_Port msg, None))
  /\ (sm_Type msg = MtError ->
      processInitialServerMessage msg
      = (0%N, Some ("server error: " ++ sm_Error msg)%string))
  /\ (~ In (sm_Type msg) [MtHello; MtError; MtChallenge] ->
      processInitialServerMessage msg
      = (0%N, Some ("unexpected initial non-hello message of type: "
                    ++ sm_Type msg)%string))
  /\ (snd (processInitialServerMessage msg) <> None ->
      fst (processInitialServerMessage msg) = 0%N).
Proof.
  split; [apply processInitialServerMessage_nil|].
  split; [apply processInitialServerMessage_hello|].
  unfold processInitialServerMessage. split; [|split].
  - intros E. now rewrite E.
  - intros H.
    repeat match goal with
    | |- context [(sm_Type msg =? ?t)%string] =>
        destruct (String.eqb_spec (sm_Type msg) t) as [E|_];
        [exfalso; apply H; rewrite E; simpl; tauto|]
    end.
    reflexivity.
  - repeat match goal with
    | |- context [if ?b then _ else _] => destruct b
    end; simpl; congruence.
Qed.

Section NewClientRuns.

Variables (sp lp : N) (lh da cid secret : string).

Lemma establishConnectionWithTimeout_at (host : string) (port : N) (w : World) :
  establishConnectionWithTimeout host port w
  = match dials w with
    | Connects rx txf :: _ =>
        Some (inl (length (socks w)),
              dialed [mkSocket (host ++ ":" ++ fmt_d port)%string true rx txf []] w)
    | DialFails e :: _ =>
        Some (inr ("could not connect to " ++ (host ++ ":" ++ fmt_d port) ++ ": " ++ e)%string,
              dialed [] w)
    | [] =>
        Some (inr ("could not connect to " ++ (host ++ ":" ++ fmt_d port)
                   ++ ": i/o timeout")%string, w)
    end.
Proof.
  unfold establishConnectionWithTimeout, bind, DialTimeout.
  now destruct (dials w) as [|[rx txf|e] more].
Qed.

(** [NewClient] returns a session or an error, never both and never
    neither. *)
Lemma NewClient_one_of (w w' : World) (r : option Client * error) :
  NewClient sp lh lp da cid secret w = Some (r, w') ->
  (exists c, r = (Some c, None)) \/ (exists e, r = (None, Some e)).
Proof.
  unfold NewClient. intros H.
  unbind H as d w0 Hdial. destruct d as [c|e]; [|ret_inv H; eauto].
  unbind H as hs w1 Hhs. destruct hs as [p [e|]]; [ret_inv H; eauto|].
  unbind H as e w2 Hsend. destruct e as [e|]; [ret_inv H; eauto|].
  unbind H as m w3 Hrecv. destruct m as [msg|e]; [|ret_inv H; eauto].
  destruct (processInitialServerMessage msg) as [rp0 [e|]]; [ret_inv H; eauto|].
  unbind H as u1 w4 Hlog1. unbind H as u2 w5 Hlog2. ret_inv H. eauto.
Qed.

Lemma NewClient_returns (w : World) :
  exists r w', NewClient sp lh lp da cid secret w = Some (r, w').
Proof.
  unfold NewClient. unfold bind at 1. rewrite establishConnectionWithTimeout_at.
  destruct (dials w) as [|[rx txf|e] more]; [unfold ret; eauto| |unfold ret; eauto].
  match goal with
  | |- context [PerformClientHandshake ?a ?st ?c] =>
      destruct (PerformClientHandshake_returns a st c
                  (dialed [mkSocket (da ++ ":" ++ fmt_d sp)%string true rx txf []] w))
        as ([p [e|]] & w1 & E1)
  end; rewrite (bind_Some _ _ _ _ _ E1); [unfold ret; eauto|].
  match goal with
  | |- context [Send ?st ?m] => destruct (Send_returns st m w1) as ([e|] & w2 & E2)
  end; rewrite (bind_Some _ _ _ _ _ E2); [unfold ret; eauto|].
  match goal with
  | |- context [Recv ?st WithTimeout] =>
      destruct (Recv_deadline_returns st w2) as ([msg|e] & w3 & E3)
  end; rewrite (bind_Some _ _ _ _ _ E3); [|unfold ret; eauto].
  destruct (processInitialServerMessage msg) as [rp0 [e|]]; [unfold ret; eauto|].
  unfold bind, log_, ret. eauto.
Qed.

(** [NewClient] closes nothing: what it opened is open when it returns. *)
Lemma NewClient_leaves_open (w w' : World) (r : option Client * error) :
  NewClient sp lh lp da cid secret w = Some (r, w') ->
  exists new,
    socks w' = socks w ++ new
    /\ Forall (fun s => sock_open s = true) new
    /\ length new = match dials w with Connects _ _ :: _ => 1%nat | _ => 0%nat end.
Proof.
  unfold NewClient. intros H. unfold bind at 1 in H.
  rewrite establishConnectionWithTimeout_at in H.
  destruct (dials w) as [|[rx txf|e] more].
  - ret_inv H. exists []. now rewrite app_nil_r.
  - set (sk := mkSocket (da ++ ":" ++ fmt_d sp)%string true rx txf []) in H.
    assert (T : touches (length (socks w)) (dialed [sk] w) w' \/
                exists w1 l1 l2, touches (length (socks w)) (dialed [sk] w) w1
                                 /\ w' = add_log l2 (add_log l1 w1)).
    { unbind H as hs w1 Hhs. apply PerformClientHandshake_touches in Hhs.
      destruct hs as [p [e|]]; [ret_inv H; now left|].
      unbind H as e w2 Hsend. apply Send_touches in Hsend.
      pose proof (touches_trans _ _ _ _ Hhs Hsend) as T2.
      destruct e as [e|]; [ret_inv H; now left|].
      unbind H as m w3 Hrecv. apply Recv_touches in Hrecv.
      pose proof (touches_trans _ _ _ _ T2 Hrecv) as T3.
      destruct m as [msg|e]; [|ret_inv H; now left].
      destruct (processInitialServerMessage msg) as [rp0 [e|]]; [ret_inv H; now left|].
      unbind H as u1 w4 Hlog1. unbind H as u2 w5 Hlog2. ret_inv H.
      unfold log_ in Hlog1, Hlog2.
      injection Hlog1 as _ <-. injection Hlog2 as _ <-. right. eauto. }
    assert (S' : exists f, socks w' = update_nth (length (socks w)) f (socks w ++ [sk])
                           /\ forall s, sock_open (f s) = sock_open s).
    { destruct T as [(f & -> & Hf)|(w1 & l1 & l2 & (f & -> & Hf) & ->)];
        exists f; now split. }
    destruct S' as (f & Hs & Hf). exists [f sk]. split; [|split].
    + now rewrite Hs, update_nth_app_last.
    + constructor; [now rewrite Hf|constructor].
    + reflexivity.
  - ret_inv H. exists []. simpl. now rewrite app_nil_r.
Qed.

(** What a successful [NewClient] has seen and done. *)
Lemma NewClient_success (w w' : World) (c : Client) :
  NewClient sp lh lp da cid secret w = Some ((Some c, None), w') ->
  exists m1 m2 m3 rest txf more,
    dials w = Connects (Arrives m1 :: Arrives m2 :: Arrives m3 :: rest) txf :: more
    /\ sm_Type m1 = MtChallenge /\ sm_Type m2 = MtFreePort /\ sm_Type m3 = MtHello
    /\ hd None txf = None /\ hd None (tl txf) = None
    /\ c = mkClient sp (NewCodec (length (socks w))) da lh lp (sm_Port m3)
             (Some (NewAuthenticator secret)) cid
    /\ w' = mkWorld
              (socks w ++
                 [mkSocket (da ++ ":" ++ fmt_d sp)%string true rest (tl (tl txf))
                    [AuthenticateMsg (NewAuthenticator secret) cid (sm_Challenge m1);
                     HelloMsg (sm_Port m2)]])
              more (copies w)
              (logs w ++ [("Connected to server at " ++ da ++ ":"
                           ++ fmt_d (sm_Port m3))%string;
                          ("Listening for connection to redirect" ++ nl)%string])
              (goroutines w).
Proof.
  unfold NewClient. intros H. unfold bind at 1 in H.
  rewrite establishConnectionWithTimeout_at in H.
  destruct (dials w) as [|[rx txf|e] more] eqn:Hd; [(unfold ret in H; discriminate H)| |(unfold ret in H; discriminate H)].
  set (sk := mkSocket (da ++ ":" ++ fmt_d sp)%string true rx txf []) in H.
  assert (Hs0 : nth_error (socks (dialed [sk] w)) (conn (NewCodec (length (socks w))))
                = Some sk) by apply (nth_error_app_last (socks w) sk []).
  unbind H as hs w1 Hhs. destruct hs as [p [e|]]; [(unfold ret in H; discriminate H)|].
  destruct (handshake_cases _ _ _ _ _ _ _ Hs0 Hhs) as (s1 & Hrun & ->).
  inversion Hrun as [| | | | | |m1 m2 r2 Hrx Ht1 Htx1 Hr]; subst s1.
  destruct (String.eqb_spec (sm_Type m2) MtFreePort) as [Ht2|]; [|discriminate].
  injection Hr as <-. simpl in Hrx, Htx1. subst rx.
  match type of H with
  | context [on_sock ?c (fun _ => ?s) ?w0] =>
      assert (Hs1 : nth_error (socks (on_sock c (fun _ => s) w0))
                      (conn (NewCodec (length (socks w)))) = Some s)
        by exact (lookup_on_sock _ (fun _ => s) _ _ Hs0)
  end.
  unfold bind at 1 in H. rewrite (Send_at _ _ _ _ Hs1) in H.
  cbn [sock_txfail rx_next tx_sent sk] in H.
  destruct (tl txf) as [|[e|] more2] eqn:Htx2; [| (unfold ret in H; discriminate H) |].
  all: match type of H with
       | context [on_sock ?c (tx_sent ?m) ?w0] =>
           pose proof (lookup_on_sock _ (tx_sent m) _ _ Hs1) as Hs2
       end;
       unfold bind at 1 in H; rewrite (Recv_at _ _ _ _ Hs2) in H;
       cbn [sock_rx rx_next tx_sent sk] in H;
       destruct r2 as [|[m3|e3] rest]; [(unfold ret in H; discriminate H)| |(unfold ret in H; discriminate H)];
       destruct (processInitialServerMessage m3) as [rp0 [e|]] eqn:Hinit;
         [(unfold ret in H; discriminate H)|];
       assert (Ht3 : sm_Type m3 = MtHello)
         by (apply processInitialServerMessage_nil; now rewrite Hinit);
       rewrite (processInitialServerMessage_hello _ Ht3) in Hinit;
       injection Hinit as <-;
       unfold bind, log_, ret in H; injection H as <- <-;
       exists m1, m2, m3, rest, txf, more;
       repeat (split; [assumption || reflexivity || (now rewrite Htx2)|]);
       unfold add_log, on_sock, dialed; cbn [socks dials copies logs goroutines];
       f_equal;
       [ rewrite !update_nth_twice, update_nth_app_last;
         unfold sk, tx_sent, rx_next;
         cbn [sock_addr sock_open sock_rx sock_txfail sock_tx app];
         rewrite Htx2; reflexivity
       | now rewrite Hd
       | now rewrite <- app_assoc ].
Qed.

End NewClientRuns.

(** The converse: against such a server [NewClient] succeeds. *)
Lemma NewClient_scripted
    (sp lp : N) (lh da cid secret : string) (w : World)
    (m1 m2 m3 : ServerMessage) (rest : list RecvEvent) (txf : list error)
    (more : list DialEvent) :
  dials w = Connects (Arrives m1 :: Arrives m2 :: Arrives m3 :: rest) txf :: more ->
  sm_Type m1 = MtChallenge -> sm_Type m2 = MtFreePort -> sm_Type m3 = MtHello ->
  hd None txf = None -> hd None (tl txf) = None ->
  NewClient sp lh lp da cid secret w
  = Some ((Some (mkClient sp (NewCodec (length (socks w))) da lh lp (sm_Port m3)
                   (Some (NewAuthenticator secret)) cid), None),
          mkWorld
            (socks w ++
               [mkSocket (da ++ ":" ++ fmt_d sp)%string true rest (tl (tl txf))
                  [AuthenticateMsg (NewAuthenticator secret) cid (sm_Challenge m1);
                   HelloMsg (sm_Port m2)]])
            more (copies w)
            (logs w ++ [("Connected to server at " ++ da ++ ":"
                         ++ fmt_d (sm_Port m3))%string;
                        ("Listening for connection to redirect" ++ nl)%string])
            (goroutines w)).
Proof.
  intros Hd Ht1 Ht2 Ht3 Htx1 Htx2.
  destruct (NewClient_until_reply sp lp lh da cid secret w m1 m2 m3 rest txf more
              Hd Ht1 Ht2 Htx1 Htx2) as (w3 & s3 & Hrun & _).
  rewrite (processInitialServerMessage_hello _ Ht3) in Hrun.
  unfold bind, log_, ret in Hrun.
  destruct (NewClient_success sp lp lh da cid secret w _ _ Hrun)
    as (m1' & m2' & m3' & rest' & txf' & more' & Hd' & _ & _ & _ & _ & _ & _ & Hw').
  rewrite Hd in Hd'. injection Hd' as <- <- <- <- <- <-.
  rewrite Hrun, Hw'. reflexivity.
Qed.

(** X8: [NewClient] never waits for ever, and it returns either a session
    with a [nil] error or no session with an error: never both, never
    neither. *)
Theorem X8_NewClient_session_or_error
    (sp lp : N) (lh da cid secret : string) (w : World) :
  exists r w',
    NewClient sp lh lp da cid secret w = Some (r, w')
    /\ ((exists c, r = (Some c, None)) \/ (exists e, r = (None, Some e))).
Proof.
  destruct (NewClient_returns sp lp lh da cid secret w) as (r & w' & H).
  exists r, w'. split; [exact H|].
  exact (NewClient_one_of sp lp lh da cid secret w w' r H).
Qed.

(** X9: [NewClient] succeeds exactly when the connection is made, the
    server sends [Challenge], [FreePort] and [Hello] in this order, and the
    two sends go out.  The session then holds the arguments, the new
    connection, the authenticator of the secret and the port of the
    server's [Hello]; on the connection exactly [Authenticate] and
    [Hello] with the granted port were sent, and two lines were logged. *)
Theorem X9_NewClient_succeeds_iff
    (sp lp : N) (lh da cid secret : string) (w w' : World) (c : Client) :
  NewClient sp lh lp da cid secret w = Some ((Some c, None), w')
  <-> exists m1 m2 m3 rest txf more,
        dials w = Connects (Arrives m1 :: Arrives m2 :: Arrives m3 :: rest) txf :: more
        /\ sm_Type m1 = MtChallenge /\ sm_Type m2 = MtFreePort
        /\ sm_Type m3 = MtHello
        /\ hd None txf = None /\ hd None (tl txf) = None
        /\ c = mkClient sp (NewCodec (length (socks w))) da lh lp (sm_Port m3)
                 (Some (NewAuthenticator secret)) cid
        /\ w' = mkWorld
                  (socks w ++
                     [mkSocket (da ++ ":" ++ fmt_d sp)%string true rest (tl (tl txf))
                        [AuthenticateMsg (NewAuthenticator secret) cid (sm_Challenge m1);
                         HelloMsg (sm_Port m2)]])
                  more (copies w)
                  (logs w ++ [("Connected to server at " ++ da ++ ":"
                               ++ fmt_d (sm_Port m3))%string;
                              ("Listening for connection to redirect" ++ nl)%string])
                  (goroutines w).
Proof.
  split; [apply NewClient_success|].
  intros (m1 & m2 & m3 & rest & txf & more & Hd & Ht1 & Ht2 & Ht3 & Htx1 & Htx2
          & -> & ->).
  now apply NewClient_scripted.
Qed.

(** X10: [NewClient] closes nothing.  When the connection was made, it is
    the one socket [NewClient] has added and it is open when [NewClient]
    returns, with a session or with an error; when the connection was not
    made, no socket was added. *)
Theorem X10_NewClient_leaves_connection_open
    (sp lp : N) (lh da cid secret : string) (w w' : World)
    (r : option Client * error) :
  NewClient sp lh lp da cid secret w = Some (r, w') ->
  exists new,
    socks w' = socks w ++ new
    /\ Forall (fun s => sock_open s = true) new
    /\ length new = match dials w with Connects _ _ :: _ => 1%nat | _ => 0%nat end.
Proof. apply NewClient_leaves_open. Qed.
(* ================================================================== *)
(** * More on the control loop *)
(* ================================================================== *)

Section LoopEffect.

Variable c : Client.

Lemma processServerMessage_tolerated (m : ServerMessage) (w : World) :
  tolerated m ->
  processServerMessage c m w
  = Some (None, mkWorld (socks w) (dials w) (copies w)
                        (logs w ++ stray_log m) (goroutines w ++ started m)).
Proof.
  unfold tolerated, processServerMessage, stray_log, started. simpl.
  intros [E|[E|[E|[E|[]]]]]; rewrite <- E; cbn;
    unfold add_log, add_goroutine, ret; rewrite ?app_nil_r;
    now destruct w.
Qed.

Lemma Listen_through (msgs : list ServerMessage) :
  forall (fuel : nat) (w : World) (s : Socket) (rest : list RecvEvent),
  nth_error (socks w) (conn (cc c)) = Some s ->
  sock_rx s = map Arrives msgs ++ rest ->
  Forall tolerated msgs ->
  Listen (length msgs + fuel) c w = Listen fuel c (after_messages c msgs rest w).
Proof.
  induction msgs as [|m msgs IH]; intros fuel w s rest Hs Hrx Htol.
  - cbn [length Nat.add]. f_equal. unfold after_messages. simpl.
    rewrite !app_nil_r. destruct w as [l ? ? ? ?]. simpl in *. f_equal.
    clear - Hs Hrx. revert l Hs.
    induction (conn (cc c)) as [|n IHn]; intros [|x l] Hs; simpl in *;
      try discriminate; try reflexivity.
    + injection Hs as ->. destruct s. simpl in *. now subst.
    + now rewrite <- (IHn l Hs).
  - inversion Htol as [|? ? Hm Htol']; subst.
    cbn [length Nat.add].
    rewrite (Listen_step c _ w s m (map Arrives msgs ++ rest) Hs Hrx).
    rewrite (processServerMessage_tolerated m _ Hm).
    pose proof (lookup_on_sock _ (rx_next (map Arrives msgs ++ rest)) _ _ Hs) as Hs1.
    match goal with
    | |- Listen _ c ?w1 = _ => rewrite (IH fuel w1 _ rest Hs1 eq_refl Htol')
    end.
    f_equal.
    unfold after_messages, on_sock. cbn [socks dials copies logs goroutines flat_map].
    rewrite update_nth_twice, <- !app_assoc. reflexivity.
Qed.

Lemma Listen_waits (fuel : nat) :
  forall (msgs : list ServerMessage) (w : World) (s : Socket),
  nth_error (socks w) (conn (cc c)) = Some s ->
  sock_rx s = map Arrives msgs ->
  Forall tolerated msgs ->
  Listen fuel c w = None.
Proof.
  induction fuel as [|fuel IH]; intros msgs w s Hs Hrx Htol; [reflexivity|].
  destruct msgs as [|m msgs].
  - cbn [Listen]. unfold bind. now rewrite (Recv_at _ _ _ _ Hs), Hrx.
  - inversion Htol as [|? ? Hm Htol']; subst.
    rewrite (Listen_step c _ w s m (map Arrives msgs) Hs Hrx).
    rewrite (processServerMessage_tolerated m _ Hm).
    pose proof (lookup_on_sock _ (rx_next (map Arrives msgs)) _ _ Hs) as Hs1.
    match goal with
    | |- Listen _ c ?w1 = _ => exact (IH msgs w1 _ Hs1 eq_refl Htol')
    end.
Qed.

End LoopEffect.

Lemma Listen_until_failure
    (c : Client) (msgs : list ServerMessage) (w : World) (s : Socket)
    (cause : string) (rest : list RecvEvent) :
  nth_error (socks w) (conn (cc c)) = Some s ->
  sock_rx s = map Arrives msgs ++ RecvFails cause :: rest ->
  Forall tolerated msgs ->
  Listen (length msgs + 1) c w
  = Some (Some ("failed to receive server message: " ++ cause)%string,
          mkWorld (update_nth (conn (cc c)) (rx_next rest) (socks w))
                  (dials w) (copies w)
                  (logs w ++ flat_map stray_log msgs)
                  (goroutines w ++ flat_map started msgs)).
Proof.
  intros Hs Hrx Htol.
  rewrite (Listen_through c msgs 1 w s _ Hs Hrx Htol).
  assert (Hs1 : nth_error (socks (after_messages c msgs (RecvFails cause :: rest) w))
                  (conn (cc c)) = Some (rx_next (RecvFails cause :: rest) s)).
  { unfold after_messages. cbn [socks].
    now rewrite nth_error_update_nth, Nat.eqb_refl, Hs. }
  cbn [Listen].
  rewrite (bind_Some _ _ _ _ _
             (Recv_fails (cc c) Background _ _ cause rest Hs1 eq_refl)).
  unfold ret, after_messages, on_sock. cbn [socks dials copies logs goroutines].
  now rewrite update_nth_twice.
Qed.

(** X11: what the control loop has done when a receive fails after the
    messages [msgs], none of which ends the loop.  It has started one
    handler for each [Connection] among them, in the order of arrival and
    with the id of the message, and logged one line for each stray [Hello]
    and [Challenge]; on the control channel it has consumed the messages
    and sent nothing, and it has opened and closed no socket. *)
Theorem X11_loop_starts_one_handler_per_connection
    (c : Client) (msgs : list ServerMessage) (w : World) (s : Socket)
    (cause : string) (rest : list RecvEvent) :
  nth_error (socks w) (conn (cc c)) = Some s ->
  sock_rx s = map Arrives msgs ++ RecvFails cause :: rest ->
  Forall tolerated msgs ->
  Listen (length msgs + 1) c w
  = Some (Some ("failed to receive server message: " ++ cause)%string,
          mkWorld (update_nth (conn (cc c)) (rx_next rest) (socks w))
                  (dials w) (copies w)
                  (logs w ++ flat_map stray_log msgs)
                  (goroutines w ++ flat_map started msgs)).
Proof. apply Listen_until_failure. Qed.

(** X12: the control loop has no timeout of its own.  When the server has
    sent only messages that do not end the loop and then sends nothing
    more, [Listen] does not return, however long it runs. *)
Theorem X12_loop_waits_without_timeout
    (c : Client) (msgs : list ServerMessage) (w : World) (s : Socket) :
  nth_error (socks w) (conn (cc c)) = Some s ->
  sock_rx s = map Arrives msgs ->
  Forall tolerated msgs ->
  forall fuel, Listen fuel c w = None.
Proof. intros Hs Hrx Htol fuel. exact (Listen_waits c fuel msgs w s Hs Hrx Htol). Qed.

(** X17: the session that [NewClient] returns is ready for [Listen].  When
    the server goes on, after its [Hello], with the messages [msgs], none
    of which ends the loop, and then closes the connection, [Listen] on
    the new session returns the receive failure, having started one
    handler for each [Connection] among [msgs]; all in all the client has
    sent [Authenticate] and [Hello] and nothing else. *)
Theorem X17_session_then_loop
    (sp lp : N) (lh da cid secret : string) (w w' : World) (c : Client)
    (m1 m2 m3 : ServerMessage) (msgs : list ServerMessage) (cause : string)
    (rest : list RecvEvent) (txf : list error) (more : list DialEvent) :
  dials w = Connects (Arrives m1 :: Arrives m2 :: Arrives m3
                        :: map Arrives msgs ++ RecvFails cause :: rest) txf :: more ->
  NewClient sp lh lp da cid secret w = Some ((Some c, None), w') ->
  Forall tolerated msgs ->
  Listen (length msgs + 1) c w'
  = Some (Some ("failed to receive server message: " ++ cause)%string,
          mkWorld
            (socks w ++
               [mkSocket (da ++ ":" ++ fmt_d sp)%string true rest (tl (tl txf))
                  [AuthenticateMsg (NewAuthenticator secret) cid (sm_Challenge m1);
                   HelloMsg (sm_Port m2)]])
            more (copies w)
            (logs w ++ [("Connected to server at " ++ da ++ ":"
                         ++ fmt_d (sm_Port m3))%string;
                        ("Listening for connection to redirect" ++ nl)%string]
                    ++ flat_map stray_log msgs)
            (goroutines w ++ flat_map started msgs)).
Proof.
  intros Hd H Htol.
  destruct (NewClient_success sp lp lh da cid secret w w' c H)
    as (m1' & m2' & m3' & rest' & txf' & more' & Hd' & _ & _ & _ & _ & _ & -> & ->).
  rewrite Hd in Hd'. injection Hd' as <- <- <- <- <- <-.
  match goal with
  | |- Listen _ ?c0 ?w0 = _ =>
      rewrite (Listen_until_failure c0 msgs w0
                 (mkSocket (da ++ ":" ++ fmt_d sp)%string true
                    (map Arrives msgs ++ RecvFails cause :: rest) (tl (tl txf))
                    [AuthenticateMsg (NewAuthenticator secret) cid (sm_Challenge m1);
                     HelloMsg (sm_Port m2)])
                 cause rest (nth_error_app_last (socks w) _ []) eq_refl Htol)
  end.
  cbn [socks dials copies logs goroutines cc conn NewCodec].
  rewrite update_nth_app_last, <- app_assoc. reflexivity.
Qed.
(* ================================================================== *)
(** * More on the tunnel connection handler *)
(* ================================================================== *)

Section HandlerCases.

Variable c : Client.
Variable id : UUID.

Lemma update_nth_app_second {A} (l : list A) (x y : A) (f : A -> A) :
  update_nth (S (length l)) f (l ++ [x; y]) = l ++ [x; f y].
Proof.
  replace (S (length l)) with (length (l ++ [x])) by (rewrite length_app; simpl; lia).
  change (l ++ [x; y]) with (l ++ [x] ++ [y]).
  now rewrite app_assoc, update_nth_app_last, <- app_assoc.
Qed.

(** The handshake of the handler on the socket it has just opened. *)
Lemma handler_handshake_fresh (c0 : net_conn) (w0 w1 : World) (sk : Socket)
    (hs : N * error) :
  nth_error (socks w0) c0 = Some sk ->
  sock_tx sk = [] ->
  handler_handshake c (NewCodec c0) w0 = Some (hs, w1) ->
  exists s1,
    w1 = on_sock c0 (fun _ => s1) w0
    /\ sock_addr s1 = sock_addr sk
    /\ match snd hs with
       | None => handshake_done c (sock_tx s1)
       | Some _ => forall m, In m (sock_tx s1) -> cm_Type m = MtAuthenticate
       end.
Proof.
  intros Hs Htx H. unfold handler_handshake in H. unfold handshake_done.
  destruct (auth c) as [a|].
  - destruct (handshake_cases a (NewCodec c0) (cid c) w0 w1 sk hs Hs H)
      as (s1 & Hrun & ->).
    exists s1. split; [reflexivity|].
    inversion Hrun as [| | | | | |m1 m2 rest Hrx Ht Htxf Hr]; subst;
      (split; [reflexivity|]);
      cbn [snd sock_tx rx_next tx_sent tx_failed]; rewrite ?Htx; cbn [app];
      try (intros ? Hin; simpl in Hin; tauto);
      try (intros ? Hin; simpl in Hin; destruct Hin as [<-|[]]; reflexivity).
    match goal with
    | |- context [(sm_Type ?m =? MtFreePort)%string] =>
        destruct (sm_Type m =? MtFreePort)%string; cbn [snd]
    end.
    + eexists. reflexivity.
    + intros ? Hin. simpl in Hin. destruct Hin as [<-|[]]. reflexivity.
  - ret_inv H. exists sk. split; [|split; [reflexivity|exact Htx]].
    rewrite <- (on_sock_const _ (fun s => s) _ _ Hs). symmetry. apply on_sock_id.
Qed.

Lemma handler_cases (w w' : World) (e : error) :
  establishConnectionRoutine c id w = Some (e, w') ->
  exists new, socks w' = socks w ++ new /\ handler_exit c id e new.
Proof.
  unfold establishConnectionRoutine. intros H. unfold bind at 1 in H.
  rewrite establishConnectionWithTimeout_at in H.
  destruct (dials w) as [|[rx txf|e0] more] eqn:Hd.
  { ret_inv H. exists []. rewrite app_nil_r. split; [reflexivity|constructor]. }
  2:{ ret_inv H. exists []. simpl. rewrite app_nil_r. split; [reflexivity|constructor]. }
  fold (server_addr c) in H.
  set (sk := mkSocket (server_addr c) true rx txf []) in H.
  set (c0 := length (socks w)) in H.
  assert (Hs0 : nth_error (socks (dialed [sk] w)) c0 = Some sk)
    by apply (nth_error_app_last (socks w) sk []).
  unfold defer at 1 in H. unbind H as e1 wb Hbody. unbind H as u wc Hclose.
  unfold Close in Hclose. injection Hclose as _ <-. ret_inv H.
  unbind Hbody as hs w1 Hhs.
  destruct (handler_handshake_fresh c0 _ _ sk hs Hs0 eq_refl Hhs)
    as (s1 & -> & Haddr & Hdone).
  assert (Hs1 : nth_error (socks (on_sock c0 (fun _ => s1) (dialed [sk] w))) c0
                = Some s1) by exact (lookup_on_sock _ (fun _ => s1) _ _ Hs0).
  assert (L1 : forall f, socks (on_sock c0 f (on_sock c0 (fun _ => s1) (dialed [sk] w)))
                         = socks w ++ [f s1]).
  { intros f. rewrite on_sock_twice. unfold on_sock, dialed. cbn [socks].
    unfold c0. now rewrite update_nth_app_last. }
  destruct (snd hs) as [err|].
  { ret_inv Hbody. exists [closed s1]. split; [apply (L1 closed)|].
    now apply he_handshake. }
  unfold bind at 1 in Hbody. rewrite (Send_at (NewCodec c0) _ _ _ Hs1) in Hbody.
  fold (AcceptMsg id) in Hbody. cbn [conn NewCodec] in Hbody.
  assert (Hfail : forall err,
            Some (Some ("failed to send accept message: " ++ err)%string,
                  on_sock c0 tx_failed (on_sock c0 (fun _ => s1) (dialed [sk] w)))
            = Some (e1, wb) ->
            exists new,
              socks (on_sock c0 closed wb) = socks w ++ new
              /\ handler_exit c id e1 new).
  { intros err E. injection E as <- <-. exists [closed (tx_failed s1)]. split.
    - rewrite on_sock_twice. apply (L1 (fun s => closed (tx_failed s))).
    - now apply he_accept. }
  destruct (sock_txfail s1) as [|[err|] txf1] eqn:Htxf;
    [|exact (Hfail err Hbody)|]; clear Hfail.
  all: set (s2 := tx_sent (AcceptMsg id) s1) in *;
       set (w2 := on_sock c0 (tx_sent (AcceptMsg id))
                    (on_sock c0 (fun _ => s1) (dialed [sk] w))) in *;
       assert (Hsocks2 : socks w2 = socks w ++ [s2]) by apply (L1 (tx_sent (AcceptMsg id)));
       assert (Hd2 : dials w2 = more) by (unfold w2; cbn; now rewrite Hd);
       unfold bind at 1 in Hbody; rewrite establishConnectionWithTimeout_at, Hd2 in Hbody;
       fold (local_addr c) in Hbody;
       destruct more as [|[rx2 txf2|e2] more2];
       [ ret_inv Hbody; exists [closed s2]; split;
         [ rewrite socks_on_sock, Hsocks2; apply update_nth_app_last
         | now apply (he_local c id _ (closed s2) (sock_tx s1)) ]
       |
       | ret_inv Hbody; exists [closed s2]; split;
         [ rewrite socks_on_sock; unfold dialed at 1; cbn [socks];
           rewrite Hsocks2, app_nil_r; apply update_nth_app_last
         | now apply (he_local c id _ (closed s2) (sock_tx s1)) ] ].
  all: set (lk := mkSocket (local_addr c) true rx2 txf2 []) in *;
       unfold defer in Hbody; unbind Hbody as e3 w4 Hrelay;
       unbind Hbody as u' wl Hclose; unfold Close in Hclose;
       injection Hclose as _ <-; ret_inv Hbody;
       unbind Hrelay as e4 w5 Hwait;
       assert (Hsocks5 : socks w5 = socks w ++ [s2; lk])
         by (unfold eg_Wait in Hwait;
             destruct (copies (dialed [lk] w2)) as [|[? ? ?|] ?];
             [| |discriminate]; injection Hwait as _ <-;
             unfold dialed, copied; cbn [socks]; rewrite Hsocks2, <- app_assoc;
             reflexivity);
       assert (He3 : e3 = match e4 with
                          | Some err => Some ("data transfer failed: " ++ err)%string
                          | None => None
                          end) by (destruct e4; now ret_inv Hrelay);
       assert (Hw5 : w4 = w5) by (destruct e4; now ret_inv Hrelay);
       subst e3 w4;
       exists [closed s2; closed lk]; split;
       [ rewrite !socks_on_sock, Hsocks5, ?Hsocks2, ?update_nth_length, length_app;
         cbn [length]; rewrite Nat.add_1_r, update_nth_app_second;
         apply (update_nth_app_last (socks w) s2 closed [closed lk])
       | now apply (he_relay c id e4 (closed s2) (closed lk) (sock_tx s1)) ].
Qed.

End HandlerCases.

(** X13: every return of [establishConnectionRoutine] is one of five
    exits, told apart by the error: the server not reached (no socket
    opened), the handshake failed (only [Authenticate] messages sent, if
    any), [Accept] not sent (handshake done), the local service not reached
    ([Accept] sent after the handshake), and the relay over, with or
    without error (both connections made).  The sockets opened are the ones
    to the server's and to the local service's address, and they are
    closed. *)
Theorem X13_handler_exits (c : Client) (id : UUID) (w w' : World) (e : error) :
  establishConnectionRoutine c id w = Some (e, w') ->
  exists new, socks w' = socks w ++ new /\ handler_exit c id e new.
Proof. apply handler_cases. Qed.

Section HandlerOrder.

Variable c : Client.
Variable id : UUID.

Lemma Accept_not_in_handshake (sent : list ClientMessage) :
  handshake_done c sent -> ~ In (AcceptMsg id) sent.
Proof.
  unfold handshake_done. destruct (auth c) as [a|].
  - intros (ch & ->) [E|[]]. discriminate E.
  - intros -> [].
Qed.

Lemma app_last_inv {A} (pre pre' : list A) (x y : A) (post : list A) :
  pre ++ [x] = pre' ++ y :: post -> ~ In y pre -> x = y /\ pre = pre' /\ post = [].
Proof.
  revert pre'. induction pre as [|p pre IH]; intros [|p' pre'] H Hn; simpl in *.
  - injection H as -> <-. auto.
  - injection H as -> H. now destruct pre'.
  - injection H as -> H. exfalso. apply Hn. now left.
  - injection H as -> H.
    destruct (IH pre' H) as (-> & -> & ->); [tauto|]. auto.
Qed.

End HandlerOrder.

(** X14: the order in which the handler acts.  It returns [nil] only when
    both connections were made.  It connects to the local service only
    after it has sent [Accept] for its connection id, and it sends
    [Accept] only after a successful handshake (the one [Authenticate]
    message when an authenticator is configured) and sends nothing after
    it. *)
Theorem X14_handler_order (c : Client) (id : UUID) (w w' : World) (e : error) :
  establishConnectionRoutine c id w = Some (e, w') ->
  exists new,
    socks w' = socks w ++ new
    /\ (e = None -> length new = 2%nat)
    /\ (length new = 2%nat ->
        exists s1 s2 pre,
          new = [s1; s2]
          /\ sock_addr s1 = server_addr c /\ sock_addr s2 = local_addr c
          /\ handshake_done c pre /\ sock_tx s1 = pre ++ [AcceptMsg id]
          /\ sock_tx s2 = [])
    /\ (forall s pre post,
          In s new -> sock_tx s = pre ++ AcceptMsg id :: post ->
          handshake_done c pre /\ post = []).
Proof.
  intros H. destruct (handler_cases c id w w' e H) as (new & Hs & Hexit).
  exists new. split; [exact Hs|].
  inversion Hexit as [err|err s1 Ha Ho Htx|err s1 Ha Ho Hd|err s1 pre Ha Ho Hd Htx
                      |e0 s1 s2 pre Ha1 Ho1 Hd Htx Ha2 Ho2 Htx2]; subst.
  - split; [discriminate|]. split; [discriminate|]. intros s pre post [].
  - split; [discriminate|]. split; [discriminate|].
    intros s pre' post [E0|[]] E; subst s.
    assert (Hin : In (AcceptMsg id) (sock_tx s1)) by (rewrite E; apply in_elt).
    apply Htx in Hin. discriminate Hin.
  - split; [discriminate|]. split; [discriminate|].
    intros s pre' post [E0|[]] E; subst s. exfalso.
    apply (Accept_not_in_handshake c id _ Hd). rewrite E. apply in_elt.
  - split; [discriminate|]. split; [discriminate|].
    intros s pre' post [E0|[]] E; subst s. rewrite Htx in E.
    destruct (app_last_inv _ _ _ _ _ E (Accept_not_in_handshake c id _ Hd))
      as (_ & <- & ->).
    now split.
  - split; [reflexivity|]. split.
    + intros _. now exists s1, s2, pre.
    + intros s pre' post [E0|[E0|[]]] E; subst s.
      * rewrite Htx in E.
        destruct (app_last_inv _ _ _ _ _ E (Accept_not_in_handshake c id _ Hd))
          as (_ & <- & ->).
        now split.
      * rewrite Htx2 in E. now destruct pre'.
Qed.
(* ================================================================== *)
(** * parseUint16 *)
(* ================================================================== *)

Section ParseUint.

Lemma cutoff_decimal : strconv.maxUint64 / 10 + 1 = 1844674407370955162.
Proof. reflexivity. Qed.

Lemma digit_decimal (c : byte) :
  match strconv.digit (byte_to_Z c) with
  | Some d => if d >=? 10 then None else Some d
  | None => None
  end = if is_digit c then Some (byte_to_Z c - 48) else None.
Proof. now destruct c. Qed.

Lemma is_digit_range (c : byte) :
  is_digit c = true -> 0 <= byte_to_Z c - 48 <= 9.
Proof. destruct c; intros H; try discriminate H; vm_compute; split; discriminate. Qed.

Lemma decimal_from_ge (s : list byte) : forall n : Z,
  forallb is_digit s = true -> 0 <= n -> n <= decimal_from n s.
Proof.
  induction s as [|c s IH]; intros n Hd Hn; [simpl; lia|].
  cbn [forallb] in Hd. apply andb_prop in Hd as [Hc Hs].
  apply is_digit_range in Hc.
  change (decimal_from n (c :: s))
    with (decimal_from (n * 10 + (byte_to_Z c - 48)) s).
  specialize (IH (n * 10 + (byte_to_Z c - 48)) Hs). lia.
Qed.

(** One turn of the loop on a decimal digit that keeps the value in range,
    and on one that does not. *)
Lemma ParseUint_loop_digit (c : byte) (s : list byte) (n : Z) :
  0 <= n <= 65535 ->
  is_digit c = true ->
  strconv.ParseUint_loop 10 65535 (strconv.maxUint64 / 10 + 1) n (c :: s)
  = if n * 10 + (byte_to_Z c - 48) >? 65535
    then (65535, Some strconv.ErrRange)
    else strconv.ParseUint_loop 10 65535 (strconv.maxUint64 / 10 + 1)
           (n * 10 + (byte_to_Z c - 48)) s.
Proof.
  intros Hn Hc. cbn [strconv.ParseUint_loop].
  pose proof (digit_decimal c) as Hdig. rewrite Hc in Hdig.
  pose proof (is_digit_range c Hc) as Hr.
  destruct (strconv.digit (byte_to_Z c)) as [d|]; [|discriminate].
  destruct (d >=? 10); [discriminate|]. injection Hdig as ->.
  rewrite cutoff_decimal.
  assert (Hcut : (n >=? 1844674407370955162) = false)
    by (rewrite Z.geb_leb; apply Z.leb_gt; lia).
  rewrite Hcut, (Z.mod_small (n * 10)) by lia.
  rewrite (Z.mod_small (n * 10 + _)) by lia.
  assert (Hlt : (n * 10 + (byte_to_Z c - 48) <? n * 10) = false)
    by (apply Z.ltb_ge; lia).
  now rewrite Hlt.
Qed.

Lemma ParseUint_loop_other (c : byte) (s : list byte) (n : Z) :
  is_digit c = false ->
  strconv.ParseUint_loop 10 65535 (strconv.maxUint64 / 10 + 1) n (c :: s)
  = (0, Some strconv.ErrSyntax).
Proof.
  intros Hc. cbn [strconv.ParseUint_loop].
  pose proof (digit_decimal c) as Hdig. rewrite Hc in Hdig.
  destruct (strconv.digit (byte_to_Z c)) as [d|]; [|reflexivity].
  now destruct (d >=? 10).
Qed.

Lemma ParseUint_loop_decimal (s : list byte) : forall n : Z,
  0 <= n <= 65535 ->
  (forallb is_digit s = true -> decimal_from n s <= 65535 ->
   strconv.ParseUint_loop 10 65535 (strconv.maxUint64 / 10 + 1) n s
   = (decimal_from n s, None))
  /\ (forallb is_digit s = true -> decimal_from n s > 65535 ->
      strconv.ParseUint_loop 10 65535 (strconv.maxUint64 / 10 + 1) n s
      = (65535, Some strconv.ErrRange))
  /\ (forallb is_digit s = false ->
      snd (strconv.ParseUint_loop 10 65535 (strconv.maxUint64 / 10 + 1) n s)
      <> None).
Proof.
  induction s as [|c s IH]; intros n Hn.
  - simpl. repeat split; (discriminate || lia || reflexivity).
  - change (decimal_from n (c :: s))
      with (decimal_from (n * 10 + (byte_to_Z c - 48)) s).
    cbn [forallb]. destruct (is_digit c) eqn:Hc; cbn [andb].
    + rewrite (ParseUint_loop_digit c s n Hn Hc).
      pose proof (is_digit_range c Hc) as Hr.
      destruct (n * 10 + (byte_to_Z c - 48) >? 65535) eqn:Hover.
      * apply Z.gtb_lt in Hover. split; [|split].
        -- intros Hs Hle.
           pose proof (decimal_from_ge s (n * 10 + (byte_to_Z c - 48)) Hs
                         ltac:(lia)).
           lia.
        -- reflexivity.
        -- discriminate.
      * rewrite Z.gtb_ltb in Hover. apply Z.ltb_ge in Hover.
        apply (IH (n * 10 + (byte_to_Z c - 48))). lia.
    + rewrite (ParseUint_loop_other c s n Hc).
      repeat split; discriminate.
Qed.

Lemma ParseUint_decimal (s : string) :
  s <> "" ->
  strconv.ParseUint s 10 16
  = strconv.ParseUint_loop 10 65535 (strconv.maxUint64 / 10 + 1) 0
      (list_byte_of_string s).
Proof.
  intros H. unfold strconv.ParseUint. apply String.eqb_neq in H. now rewrite H.
Qed.

Lemma parseUint16_accepts (s : string) (n : N) :
  parseUint16 s = inl n
  <-> s <> ""
      /\ forallb is_digit (list_byte_of_string s) = true
      /\ decimal_value (list_byte_of_string s) = Z.of_N n
      /\ (n <= 65535)%N.
Proof.
  unfold parseUint16. destruct (String.eqb_spec s "") as [->|Hne].
  { split; [discriminate|]. intros [H _]. now contradiction H. }
  rewrite (ParseUint_decimal s Hne).
  destruct (ParseUint_loop_decimal (list_byte_of_string s) 0 ltac:(lia))
    as (Hok & Hrange & Hsyntax).
  fold (decimal_value (list_byte_of_string s)) in *.
  destruct (forallb is_digit (list_byte_of_string s)) eqn:Hd.
  - pose proof (decimal_from_ge _ 0 Hd ltac:(lia)) as Hge.
    fold (decimal_value (list_byte_of_string s)) in Hge.
    destruct (Z_le_gt_dec (decimal_value (list_byte_of_string s)) 65535) as [Hle|Hgt].
    + rewrite (Hok eq_refl Hle), Z.mod_small by lia. split.
      * intros E. injection E as <-. rewrite Z2N.id by lia.
        repeat split; try assumption; lia.
      * intros (_ & _ & E & _). rewrite E, N2Z.id. reflexivity.
    + rewrite (Hrange eq_refl Hgt). split; [discriminate|].
      intros (_ & _ & E & Hn). lia.
  - specialize (Hsyntax eq_refl).
    destruct (strconv.ParseUint_loop _ _ _ _ _) as [v [e|]]; [|now contradiction Hsyntax].
    split; [discriminate|]. intros (_ & E & _). discriminate E.
Qed.

(** Digits only, but a value beyond 65535: the range error. *)
Lemma parseUint16_out_of_range (s : string) :
  forallb is_digit (list_byte_of_string s) = true ->
  decimal_value (list_byte_of_string s) > 65535 ->
  parseUint16 s = inr strconv.ErrRange.
Proof.
  intros Hd Hv. unfold parseUint16.
  destruct (String.eqb_spec s "") as [->|Hne]; [vm_compute in Hv; discriminate|].
  rewrite (ParseUint_decimal s Hne).
  destruct (ParseUint_loop_decimal (list_byte_of_string s) 0 ltac:(lia))
    as (_ & Hrange & _).
  now rewrite (Hrange Hd Hv).
Qed.

Lemma list_byte_of_string_cons (a : ascii) (s : string) :
  list_byte_of_string (String a s) = byte_of_ascii a :: list_byte_of_string s.
Proof. reflexivity. Qed.

Lemma decimal_from_cons (n : Z) (c : byte) (l : list byte) :
  decimal_from n (c :: l) = decimal_from (n * 10 + (byte_to_Z c - 48)) l.
Proof. reflexivity. Qed.

(** What [%d] prints: digits only, denoting the number. *)
Lemma string_of_uint_digits (d : Decimal.uint) : forall n : Z,
  forallb is_digit (list_byte_of_string (NilEmpty.string_of_uint d)) = true
  /\ decimal_from n (list_byte_of_string (NilEmpty.string_of_uint d))
     = uint_value n d.
Proof.
  induction d as [|d IH|d IH|d IH|d IH|d IH|d IH|d IH|d IH|d IH|d IH]; intros n;
    [now split|..];
    cbn [NilEmpty.string_of_uint uint_value];
    rewrite list_byte_of_string_cons, decimal_from_cons;
    cbn [forallb];
    (match goal with
     | |- context [decimal_from ?m (list_byte_of_string _)] =>
         destruct (IH m) as [Hd Hv]; rewrite Hd, Hv
     end);
    (split; [reflexivity|f_equal]);
    (match goal with
     | |- context [byte_to_Z (byte_of_ascii ?a)] =>
         let v := eval vm_compute in (byte_to_Z (byte_of_ascii a)) in
         change (byte_to_Z (byte_of_ascii a)) with v
     end);
    lia.
Qed.

Lemma of_uint_acc_value (d : Decimal.uint) : forall acc : positive,
  Z.pos (Pos.of_uint_acc d acc) = uint_value (Z.pos acc) d.
Proof.
  induction d as [|d IH|d IH|d IH|d IH|d IH|d IH|d IH|d IH|d IH|d IH]; intros acc;
    [reflexivity|..];
    cbn [Pos.of_uint_acc uint_value]; rewrite IH; f_equal; lia.
Qed.

Lemma of_uint_value (d : Decimal.uint) : Z.of_N (Pos.of_uint d) = uint_value 0 d.
Proof.
  induction d as [|d IH|d IH|d IH|d IH|d IH|d IH|d IH|d IH|d IH|d IH];
    [reflexivity|exact IH|..];
    cbn [Pos.of_uint uint_value Z.of_N]; apply of_uint_acc_value.
Qed.

Lemma fmt_d_decimal (n : N) :
  fmt_d n <> ""
  /\ forallb is_digit (list_byte_of_string (fmt_d n)) = true
  /\ decimal_value (list_byte_of_string (fmt_d n)) = Z.of_N n.
Proof.
  unfold fmt_d, decimal_value.
  assert (Hv : uint_value 0 (N.to_uint n) = Z.of_N n).
  { rewrite <- of_uint_value. f_equal. apply DecimalN.Unsigned.of_to. }
  destruct (string_of_uint_digits (N.to_uint n) 0) as [Hd Hval].
  destruct (N.to_uint n) as [|d|d|d|d|d|d|d|d|d|d] eqn:E;
    (split; [discriminate|]); (split; [exact Hd || reflexivity|]);
    rewrite <- Hv; exact Hval.
Qed.

End ParseUint.

(** X15: a port that [%d] has printed, as in the address that
    [establishConnectionWithTimeout] dials, is read back by [parseUint16]
    as the same port: for every [uint16] [n], [parseUint16] of the decimal
    spelling of [n] is [n]. *)
Theorem X15_parseUint16_reads_what_is_printed (n : N) :
  (n <= 65535)%N -> parseUint16 (fmt_d n) = inl n.
Proof.
  intros H. destruct (fmt_d_decimal n) as (Hne & Hd & Hv).
  apply parseUint16_accepts. auto.
Qed.

(** X16: [parseUint16] returns a port exactly on a non-empty string of
    decimal digits whose value is at most 65535, and the port is that
    value (leading zeros are read, a sign or a space is not).  On digits
    that denote more than 65535 the process ends with the range error, on
    the empty string with the syntax error. *)
Theorem X16_parseUint16_accepts (s : string) :
  (forall n : N,
     parseUint16 s = inl n
     <-> s <> ""
         /\ forallb is_digit (list_byte_of_string s) = true
         /\ decimal_value (list_byte_of_string s) = Z.of_N n
         /\ (n <= 65535)%N)
  /\ (forallb is_digit (list_byte_of_string s) = true ->
      decimal_value (list_byte_of_string s) > 65535 ->
      parseUint16 s = inr strconv.ErrRange)
  /\ parseUint16 "" = inr strconv.ErrSyntax.
Proof.
  split; [intros n; apply parseUint16_accepts|].
  split; [apply parseUint16_out_of_range|reflexivity].
Qed.
(* ================================================================== *)
(** * The further properties at the scenarios *)
(* ================================================================== *)

(** X4 at a challenge answered by a grant of port 5000. *)
Lemma X4_handshake_succeeds_iff_witness :
  PerformClientHandshake (NewAuthenticator secret) (mkCodec 0) "TEST"
    (established [Arrives (Challenge X); Arrives (FreePort 5000)] [] [])
  = Some ((5000%N, None),
          on_sock 0
            (fun s => rx_next []
               (tx_sent (AuthenticateMsg (NewAuthenticator secret) "TEST" X) s))
            (established [Arrives (Challenge X); Arrives (FreePort 5000)] [] [])).
Proof.
  destruct (X4_handshake_succeeds_iff (NewAuthenticator secret) (mkCodec 0) "TEST"
              (established [Arrives (Challenge X); Arrives (FreePort 5000)] [] [])
              (mkSocket "relay:8901" true
                 [Arrives (Challenge X); Arrives (FreePort 5000)] [] [])
              eq_refl) as [Hiff _].
  apply Hiff. exists (Challenge X), (FreePort 5000), [].
  split; [reflexivity|]. split; [reflexivity|]. split; [reflexivity|].
  split; [reflexivity|]. split; reflexivity.
Defined.

(** X5 at a challenge after which the server says nothing more. *)
Lemma X5_handshake_sends_one_valid_answer_witness :
  exists r w' s',
    PerformClientHandshake (NewAuthenticator secret) (mkCodec 0) "TEST"
      (established [Arrives (Challenge X)] [] []) = Some (r, w')
    /\ w' = on_sock 0 (fun _ => s') (established [Arrives (Challenge X)] [] [])
    /\ sock_open s' = true
    /\ (sock_tx s' = []
        \/ exists m rest,
             [Arrives (Challenge X)] = Arrives m :: rest
             /\ sm_Type m = MtChallenge
             /\ sock_tx s' = [] ++
                  [mkClientMessage MtAuthenticate
                     (GenerateAnswer (NewAuthenticator secret) (sm_Challenge m))
                     0%N uuid_Nil "TEST"]
             /\ ValidateAnswer (NewAuthenticator secret) (sm_Challenge m)
                  (GenerateAnswer (NewAuthenticator secret) (sm_Challenge m)) = true).
Proof.
  destruct (PerformClientHandshake_returns (NewAuthenticator secret) (mkCodec 0)
              "TEST" (established [Arrives (Challenge X)] [] [])) as (r & w' & H).
  destruct (X5_handshake_sends_one_valid_answer (NewAuthenticator secret)
              (mkCodec 0) "TEST" (established [Arrives (Challenge X)] [] []) w'
              (mkSocket "relay:8901" true [Arrives (Challenge X)] [] []) r
              eq_refl H) as (s' & Hw & Ho & Htx).
  exists r, w', s'. split; [exact H|]. split; [exact Hw|]. split; [exact Ho|exact Htx].
Defined.

(** X6 at a server that never says anything. *)
Lemma X6_handshake_never_blocks_witness :
  exists e w',
    PerformClientHandshake (NewAuthenticator secret) (mkCodec 0) "TEST"
      (established [] [] []) = Some ((0%N, Some e), w').
Proof.
  destruct (X6_handshake_never_blocks (NewAuthenticator secret) (mkCodec 0) "TEST"
              (established [] [] [])) as [(r & w' & H) Hsilent].
  destruct (Hsilent (mkSocket "relay:8901" true [] [] []) r w' eq_refl H
              (or_introl eq_refl)) as (e & ->).
  now exists e, w'.
Defined.

(** X10 at a server that opens with [Hello]: the handshake fails and the
    connection stays open. *)
Lemma X10_NewClient_leaves_connection_open_witness :
  exists r w' new,
    NewClient 8901 "127.0.0.1" 9090 "relay" "TEST" secret
      (server [Arrives (Hello 1)]) = Some (r, w')
    /\ socks w' = [] ++ new
    /\ Forall (fun s => sock_open s = true) new
    /\ length new = 1%nat.
Proof.
  destruct (NewClient_returns 8901 9090 "127.0.0.1" "relay" "TEST" secret
              (server [Arrives (Hello 1)])) as (r & w' & H).
  destruct (X10_NewClient_leaves_connection_open 8901 9090 "127.0.0.1" "relay"
              "TEST" secret _ w' r H) as (new & Hs & Ho & Hl).
  exists r, w', new. split; [exact H|]. split; [exact Hs|]. split; [exact Ho|exact Hl].
Defined.

(** X11 at two connection notices among a heartbeat and a stray [Hello],
    before the server closes the connection. *)
Lemma X11_loop_starts_one_handler_per_connection_witness :
  Listen 5 client
    (established [Arrives Heartbeat; Arrives (Connection X); Arrives (Hello 1);
                  Arrives (Connection Y); RecvFails "EOF"] [] [])
  = Some (Some "failed to receive server message: EOF",
          mkWorld [mkSocket "relay:8901" true [] [] []] [] []
                  ["Received an unexpected hello message"] [X; Y]).
Proof.
  apply (X11_loop_starts_one_handler_per_connection client
           [Heartbeat; Connection X; Hello 1; Connection Y]
           (established [Arrives Heartbeat; Arrives (Connection X); Arrives (Hello 1);
                         Arrives (Connection Y); RecvFails "EOF"] [] [])
           (mkSocket "relay:8901" true
              [Arrives Heartbeat; Arrives (Connection X); Arrives (Hello 1);
               Arrives (Connection Y); RecvFails "EOF"] [] [])
           "EOF" [] eq_refl eq_refl).
  repeat constructor; unfold tolerated; simpl; tauto.
Defined.

(** X17 at the scripted establishment, followed by a heartbeat and a
    connection notice. *)
Lemma X17_session_then_loop_witness :
  exists c w',
    NewClient 8901 "127.0.0.1" 9090 "relay" "TEST" secret
      (server [Arrives (Challenge X); Arrives (FreePort 5000); Arrives (Hello 9090);
               Arrives Heartbeat; Arrives (Connection Y); RecvFails "EOF"])
    = Some ((Some c, None), w')
    /\ option_map (fun r => (fst r, goroutines (snd r))) (Listen 3 c w')
       = Some (Some "failed to receive server message: EOF", [Y]).
Proof.
  pose proof (NewClient_scripted 8901 9090 "127.0.0.1" "relay" "TEST" secret
                (server [Arrives (Challenge X); Arrives (FreePort 5000);
                         Arrives (Hello 9090); Arrives Heartbeat;
                         Arrives (Connection Y); RecvFails "EOF"])
                (Challenge X) (FreePort 5000) (Hello 9090)
                [Arrives Heartbeat; Arrives (Connection Y); RecvFails "EOF"] [] []
                eq_refl eq_refl eq_refl eq_refl eq_refl eq_refl) as H.
  match type of H with
  | _ = Some ((Some ?c0, None), ?w0) => set (c := c0) in *; set (w' := w0) in *
  end.
  exists c, w'. split; [exact H|].
  assert (Htol : Forall tolerated [Heartbeat; Connection Y])
    by (repeat constructor; unfold tolerated; simpl; tauto).
  pose proof (X17_session_then_loop 8901 9090 "127.0.0.1" "relay" "TEST" secret
                (server [Arrives (Challenge X); Arrives (FreePort 5000);
                         Arrives (Hello 9090); Arrives Heartbeat;
                         Arrives (Connection Y); RecvFails "EOF"])
                w' c (Challenge X) (FreePort 5000) (Hello 9090)
                [Heartbeat; Connection Y] "EOF" [] [] [] eq_refl H Htol) as E.
  change (length [Heartbeat; Connection Y] + 1)%nat with 3%nat in E.
  rewrite E. reflexivity.
Defined.

(** X12 at a server that sends two heartbeats and then nothing. *)
Lemma X12_loop_waits_without_timeout_witness :
  Listen 1000 client (established [Arrives Heartbeat; Arrives Heartbeat] [] []) = None.
Proof.
  apply (X12_loop_waits_without_timeout client [Heartbeat; Heartbeat]
           (established [Arrives Heartbeat; Arrives Heartbeat] [] [])
           (mkSocket "relay:8901" true [Arrives Heartbeat; Arrives Heartbeat] [] [])
           eq_refl eq_refl).
  repeat constructor; unfold tolerated; simpl; tauto.
Defined.

(** X13 at a handler whose local service refuses the connection. *)
Lemma X13_handler_exits_witness :
  exists e w' new,
    establishConnectionRoutine client X
      (established [] [tunnel []; DialFails "connection refused"] []) = Some (e, w')
    /\ socks w' = [mkSocket "relay:8901" true [] [] []] ++ new
    /\ handler_exit client X e new.
Proof.
  destruct (establishConnectionRoutine_returns client X
              (established [] [tunnel []; DialFails "connection refused"] []))
    as (e & w' & H); [discriminate|].
  destruct (X13_handler_exits client X _ w' e H) as (new & Hs & Hx).
  exists e, w', new. split; [exact H|]. split; [exact Hs|exact Hx].
Defined.

(** X14 at a handler that relays until both sides have closed. *)
Lemma X14_handler_order_witness :
  exists e w' new,
    establishConnectionRoutine client X
      (established [] [tunnel []; local_service] [CopyEnds None None true])
    = Some (e, w')
    /\ socks w' = [mkSocket "relay:8901" true [] [] []] ++ new
    /\ (e = None -> length new = 2%nat)
    /\ (forall s pre post,
          In s new -> sock_tx s = pre ++ AcceptMsg X :: post ->
          handshake_done client pre /\ post = []).
Proof.
  destruct (establishConnectionRoutine_returns client X
              (established [] [tunnel []; local_service] [CopyEnds None None true]))
    as (e & w' & H); [discriminate|].
  destruct (X14_handler_order client X _ w' e H) as (new & Hs & Hnil & _ & Hord).
  exists e, w', new. split; [exact H|]. split; [exact Hs|]. split; [exact Hnil|exact Hord].
Defined.

(** X15 at port 9090. *)
Lemma X15_parseUint16_reads_what_is_printed_witness :
  parseUint16 (fmt_d 9090) = inl 9090%N.
Proof. apply X15_parseUint16_reads_what_is_printed. discriminate. Defined.

(** X16 at a port with a leading zero, at a signed port and at 65536. *)
Lemma X16_parseUint16_accepts_witness :
  parseUint16 "080" = inl 80%N
  /\ parseUint16 "+80" <> inl 80%N
  /\ parseUint16 "65536" = inr strconv.ErrRange.
Proof.
  split; [|split].
  - destruct (X16_parseUint16_accepts "080") as [Hiff _]. apply Hiff.
    split; [discriminate|]. split; [reflexivity|]. split; [reflexivity|discriminate].
  - destruct (X16_parseUint16_accepts "+80") as [Hiff _]. intros H.
    apply Hiff in H. destruct H as (_ & Hd & _). discriminate Hd.
  - destruct (X16_parseUint16_accepts "65536") as (_ & Hrange & _).
    apply Hrange; reflexivity.
Defined.
